(** * Prospektmaschine leaflet scraper: extraction and validity parsing

    A shallow embedding of [ProspektmaschineScraper.parse_page],
    [parse_dates] and [format_date] of [src/main.py], and the properties of
    the record extraction and of the validity-period handling.

    Conventions of the embedding.
    - A Python [str] is a [string]; a character is a code point below 256
      (the Latin-1 range), so the character classes of [re] and of
      [str.strip] are the restrictions of the Unicode ones to that range.
    - The document is the tree BeautifulSoup has already built from the
      markup; selectors are evaluated on that tree the way soupsieve does
      (document order, ancestors looked up through the parent chain).
    - A raised exception is a value of [result]; the clock is read through
      an explicit [world]. *)

From Stdlib Require Import Ascii String NArith DecimalString DecimalNat.
From stdpp Require Import base option list strings gmap.

(** ** Exceptions *)

Inductive exn : Type :=
| KeyError (key : string)
| ValueError (msg : string)
| IndexError (msg : string).

Inductive result (A : Type) : Type :=
| Ok (a : A)
| Raise (e : exn).
Arguments Ok {A} a.
Arguments Raise {A} e.

Definition bind {A B} (r : result A) (f : A -> result B) : result B :=
  match r with
  | Ok a => f a
  | Raise e => Raise e
  end.

Notation "'try!' x ':=' r 'in' k" := (bind r (fun x => k))
  (at level 10, x name, r at level 100, k at level 200).

(** ** Characters and the classes of [re] *)

Module Char.

Definition code (c : ascii) : N := N_of_ascii c.

Definition between (lo hi : N) (c : ascii) : bool :=
  ((lo <=? code c) && (code c <=? hi))%N.

(** [\d] on [str] patterns: the decimal digits (category Nd). *)
Definition is_digit (c : ascii) : bool := between 48 57 c.

(** [\w] on [str] patterns: alphanumeric code points and the underscore. *)
Definition is_word (c : ascii) : bool :=
  is_digit c || between 65 90 c || (code c =? 95)%N || between 97 122 c
  || (code c =? 170)%N || between 178 179 c || (code c =? 181)%N
  || between 185 186 c || between 188 190 c
  || between 192 214 c || between 216 246 c || between 248 255 c.

(** What [str.strip()] removes at both ends. *)
Definition is_space (c : ascii) : bool :=
  between 9 13 c || between 28 32 c || (code c =? 133)%N || (code c =? 160)%N.

Definition exactly (c : ascii) : ascii -> bool := Ascii.eqb c.

End Char.

(** ** Strings *)

Module Str.

Fixpoint take (n : nat) (s : string) : string :=
  match n, s with
  | S n', String c s' => String c (take n' s')
  | _, _ => ""
  end.

Fixpoint drop (n : nat) (s : string) : string :=
  match n, s with
  | S n', String _ s' => drop n' s'
  | _, _ => s
  end.

(** [s.startswith(p)] *)
Fixpoint startswith (p s : string) : bool :=
  match p, s with
  | "", _ => true
  | String a p', String b s' => Ascii.eqb a b && startswith p' s'
  | String _ _, "" => false
  end.

Fixpoint lstrip (s : string) : string :=
  match s with
  | String c s' => if Char.is_space c then lstrip s' else s
  | "" => ""
  end.

(** [rstrip]: a character is kept when something is kept after it or it is
    not white space. *)
Fixpoint rstrip (s : string) : string :=
  match s with
  | "" => ""
  | String c s' =>
      match rstrip s' with
      | "" => if Char.is_space c then "" else String c ""
      | r => String c r
      end
  end.

(** [s.strip()] *)
Definition strip (s : string) : string := rstrip (lstrip s).

(** [s.replace(old, new)] for a non-empty [old]: the occurrences of [old]
    are found from the left and do not overlap.  [fuel] bounds the number
    of characters still to be scanned. *)
Fixpoint replace_from (fuel : nat) (old new s : string) : string :=
  match fuel with
  | 0 => s
  | S fuel' =>
      match s with
      | "" => ""
      | String c s' =>
          if startswith old s
          then new +:+ replace_from fuel' old new (drop (String.length old) s)
          else String c (replace_from fuel' old new s')
      end
  end.

Definition replace (old new s : string) : string :=
  replace_from (String.length s) old new s.

(** [s.split(sep)] for a non-empty [sep] *)
Fixpoint split_from (fuel : nat) (sep s : string) : list string :=
  match fuel with
  | 0 => [s]
  | S fuel' =>
      match s with
      | "" => [""]
      | String c s' =>
          if startswith sep s
          then "" :: split_from fuel' sep (drop (String.length sep) s)
          else
            match split_from fuel' sep s' with
            | part :: parts => String c part :: parts
            | [] => [String c ""]
            end
      end
  end.

Definition split (sep s : string) : list string :=
  split_from (String.length s) sep s.

(** [sep.join(parts)] with [sep = ""] *)
Definition join (parts : list string) : string :=
  foldr String.app "" parts.

(** [old in s] *)
Fixpoint contains (old s : string) : bool :=
  startswith old s ||
  match s with
  | "" => false
  | String _ s' => contains old s'
  end.

End Str.

(** ** A backtracking matcher for the fragment of [re] the scraper uses *)

Module Re.

(** Patterns.  [Cls] is one character of a class, [Alt] tries its left
    branch first, [Opt] and [Plus] are greedy, [Grp] is a capturing
    group; groups are numbered in the order in which they close, which
    for the patterns below (no nested and no optional group) is the order
    of their opening parentheses. *)
Inductive regex : Type :=
| Eps
| Cls (p : ascii -> bool)
| Cat (r1 r2 : regex)
| Alt (r1 r2 : regex)
| Opt (r : regex)
| Plus (p : ascii -> bool)
| Grp (r : regex).

(** Patterns without a capturing group. *)
Fixpoint groupless (r : regex) : Prop :=
  match r with
  | Eps | Cls _ | Plus _ => True
  | Cat r1 r2 | Alt r1 r2 => groupless r1 /\ groupless r2
  | Opt r1 => groupless r1
  | Grp _ => False
  end.

(** The text matched between the position [s] and the later position [s']. *)
Definition consumed (s s' : string) : string :=
  Str.take (String.length s - String.length s') s.

Definition or_else {A} (x : option A) (y : option A) : option A :=
  match x with
  | Some a => Some a
  | None => y
  end.

Section Matcher.
Context {R : Type}.

(** Zero or more characters of [p], as many as possible first. *)
Fixpoint star (p : ascii -> bool) (s : string)
    (k : string -> option R) : option R :=
  or_else
    match s with
    | String c s' => if p c then star p s' k else None
    | "" => None
    end
    (k s).

(** [rmatch r s caps k]: match [r] at the start of [s], with the groups
    [caps] closed so far, then continue with [k] on the rest; [None]
    makes the matcher backtrack into the last choice. *)
Fixpoint rmatch (r : regex) (s : string) (caps : list string)
    (k : string -> list string -> option R) : option R :=
  match r with
  | Eps => k s caps
  | Cls p =>
      match s with
      | String c s' => if p c then k s' caps else None
      | "" => None
      end
  | Cat r1 r2 => rmatch r1 s caps (fun s' caps' => rmatch r2 s' caps' k)
  | Alt r1 r2 => or_else (rmatch r1 s caps k) (rmatch r2 s caps k)
  | Opt r1 => or_else (rmatch r1 s caps k) (k s caps)
  | Plus p =>
      match s with
      | String c s' => if p c then star p s' (fun s'' => k s'' caps) else None
      | "" => None
      end
  | Grp r1 => rmatch r1 s caps (fun s' caps' => k s' (caps' ++ [consumed s s']))
  end.
End Matcher.

(** A match object: the whole match and the groups. *)
Record match_object : Type := MatchObject {
  group0 : string;
  groups : list string
}.

(** [re.match(r, s)] without the compilation step *)
Definition match_here (r : regex) (s : string) : option match_object :=
  rmatch r s [] (fun s' caps => Some (MatchObject (consumed s s') caps)).

(** [re.search(r, s)]: the first position, from the left, at which the
    pattern matches; the end of the text is a position too. *)
Fixpoint search (r : regex) (s : string) : option match_object :=
  or_else (match_here r s)
    match s with
    | "" => None
    | String _ s' => search r s'
    end.

(** [m.group(i)] for [i >= 1]; a group the pattern does not have is an
    [IndexError]. *)
Definition group (m : match_object) (i : nat) : result string :=
  match i with
  | 0 => Ok (group0 m)
  | S i' =>
      match groups m !! i' with
      | Some g => Ok g
      | None => Raise (IndexError "no such group")
      end
  end.

(** Pattern syntax. *)
Fixpoint lit (s : string) : regex :=
  match s with
  | "" => Eps
  | String c s' => Cat (Cls (Char.exactly c)) (lit s')
  end.

Fixpoint rep (n : nat) (r : regex) : regex :=
  match n with
  | 0 => Eps
  | S n' => Cat r (rep n' r)
  end.

Definition d : regex := Cls Char.is_digit.
Definition w_plus : regex := Plus Char.is_word.
Definition range (lo hi : ascii) : regex :=
  Cls (Char.between (Char.code lo) (Char.code hi)).

End Re.

Infix "@@" := Re.Cat (at level 60, right associativity).

(** ** The two validity patterns of [parse_page] *)

(** [\d{2}\.\d{2}\.\d{4}] *)
Definition date_token : Re.regex :=
  Re.rep 2 Re.d @@ Re.lit "." @@ Re.rep 2 Re.d @@ Re.lit "." @@ Re.rep 4 Re.d.

(** [(\d{2}\.\d{2}\.\d{4}) - (\d{2}\.\d{2}\.\d{4})] *)
Definition range_pattern : Re.regex :=
  Re.Grp date_token @@ Re.lit " - " @@ Re.Grp date_token.

(** [(?:von \w+ )?(\d{2}\.\d{2}\.\d{4})] *)
Definition single_pattern : Re.regex :=
  Re.Opt (Re.lit "von " @@ Re.w_plus @@ Re.lit " ") @@ Re.Grp date_token.

(** Lines 88 to 99 of [parse_page]: both patterns are searched in the
    validity text, and the branches pick the range first.  Unpacking
    [groups()] into two names raises [ValueError] unless there are exactly
    two groups. *)
Definition parse_validity (date_text : string) : result (string * string) :=
  let match_range := Re.search range_pattern date_text in
  let match_single := Re.search single_pattern date_text in
  match match_range with
  | Some m =>
      match Re.groups m with
      | [valid_from; valid_to] => Ok (valid_from, valid_to)
      | _ => Raise (ValueError "wrong number of values to unpack")
      end
  | None =>
      match match_single with
      | Some m =>
          try! valid_from := Re.group m 1 in
          Ok (valid_from, "Unknown")
      | None => Ok ("Unknown", "Unknown")
      end
  end.

(** ** The parsed document *)

Set Warnings "-register-all".

(** What BeautifulSoup builds: strings, comments (and the other strings that
    [get_text] leaves out) and tags.  The [class] attribute of a tag is the
    list of its tokens; the other attributes are a dictionary from names to
    strings (the parser stores a value-less attribute as the empty string). *)
Inductive node : Type :=
| NavigableString (s : string)
| Comment (s : string)
| Tag (name : string) (classes : list string) (attrs : gmap string string)
      (contents : list node).

(** A tag together with its chain of parents, nearest first: what the
    [parent] links of a BeautifulSoup tag give. *)
Record tag_ref : Type := TagRef {
  parents : list node;
  tag : node
}.

Definition tag_name (n : node) : option string :=
  match n with
  | Tag name _ _ _ => Some name
  | _ => None
  end.

Definition tag_classes (n : node) : list string :=
  match n with
  | Tag _ classes _ _ => classes
  | _ => []
  end.

Definition tag_attrs (n : node) : gmap string string :=
  match n with
  | Tag _ _ attrs _ => attrs
  | _ => ∅
  end.

(** [tag.get(key)]: the value or [None] *)
Definition get (t : tag_ref) (key : string) : option string :=
  tag_attrs (tag t) !! key.

(** [tag.get(key, default)] *)
Definition get_default (t : tag_ref) (key default : string) : string :=
  match tag_attrs (tag t) !! key with
  | Some v => v
  | None => default
  end.

(** [tag[key]]: the value or a [KeyError] *)
Definition getitem (t : tag_ref) (key : string) : result string :=
  match tag_attrs (tag t) !! key with
  | Some v => Ok v
  | None => Raise (KeyError key)
  end.

(** The strings below a node, in document order. *)
Fixpoint all_strings (n : node) : list string :=
  match n with
  | NavigableString s => [s]
  | Comment _ => []
  | Tag _ _ _ contents =>
      (fix go (cs : list node) : list string :=
         match cs with
         | [] => []
         | c :: cs' => all_strings c ++ go cs'
         end) contents
  end.

(** [tag.get_text(strip=True)]: every string stripped, the empty ones left
    out, the rest joined without a separator. *)
Definition get_text_strip (t : tag_ref) : string :=
  Str.join
    (filter (fun s => s <> EmptyString) (Str.strip <$> all_strings (tag t))).

(** The descendants of a node in document order, each with its parents. *)
Fixpoint descendants (ps : list node) (n : node) : list tag_ref :=
  match n with
  | Tag _ _ _ contents =>
      (fix go (cs : list node) : list tag_ref :=
         match cs with
         | [] => []
         | c :: cs' => TagRef (n :: ps) c :: descendants (n :: ps) c ++ go cs'
         end) contents
  | _ => []
  end.

(** ** Selectors *)

Module Css.

(** A compound selector: an optional type selector and class selectors. *)
Record compound : Type := Compound {
  sel_name : option string;
  sel_classes : list string
}.

(** A compound, or a selector and a compound joined by the descendant
    combinator (a space). *)
Inductive selector : Type :=
| Simple (c : compound)
| Desc (anc : selector) (c : compound).

Definition has_class (n : node) (cl : string) : bool :=
  bool_decide (cl ∈ tag_classes n).

Definition matches_compound (c : compound) (n : node) : bool :=
  match tag_name n with
  | None => false
  | Some name =>
      match sel_name c with
      | Some want => bool_decide (want = name)
      | None => true
      end
      && forallb (has_class n) (sel_classes c)
  end.

(** [n], whose parents are [ps], matches the selector: its last compound
    matches [n], and the selector before the combinator matches one of
    the parents. *)
Fixpoint matches (sel : selector) (ps : list node) (n : node) : bool :=
  match sel with
  | Simple c => matches_compound c n
  | Desc anc c =>
      matches_compound c n &&
      (fix up (ps : list node) : bool :=
         match ps with
         | [] => false
         | p :: ps' => matches anc ps' p || up ps'
         end) ps
  end.

(** [tag.select(sel)]: the matching descendants, in document order *)
Definition select (sel : selector) (t : tag_ref) : list tag_ref :=
  filter (fun r => matches sel (parents r) (tag r) = true)
         (descendants (parents t) (tag t)).

(** [tag.select_one(sel)]: the first of them, or [None] *)
Definition select_one (sel : selector) (t : tag_ref) : option tag_ref :=
  head (select sel t).

Definition class_ (cl : string) : compound := Compound None [cl].
Definition type_ (name : string) : compound := Compound (Some name) [].
Definition type_class (name cl : string) : compound := Compound (Some name) [cl].

End Css.

(** [".brochure-thumb"] *)
Definition sel_tile : Css.selector := Css.Simple (Css.class_ "brochure-thumb").
(** [".grid-item-content strong"] *)
Definition sel_title : Css.selector :=
  Css.Desc (Css.Simple (Css.class_ "grid-item-content")) (Css.type_ "strong").
(** [".img-container img"] *)
Definition sel_img : Css.selector :=
  Css.Desc (Css.Simple (Css.class_ "img-container")) (Css.type_ "img").
(** [".grid-logo img"] *)
Definition sel_logo : Css.selector :=
  Css.Desc (Css.Simple (Css.class_ "grid-logo")) (Css.type_ "img").
(** [".grid-item-content small.hidden-sm"] *)
Definition sel_date_hidden : Css.selector :=
  Css.Desc (Css.Simple (Css.class_ "grid-item-content"))
           (Css.type_class "small" "hidden-sm").
(** [".grid-item-content small.visible-sm"] *)
Definition sel_date_visible : Css.selector :=
  Css.Desc (Css.Simple (Css.class_ "grid-item-content"))
           (Css.type_class "small" "visible-sm").

(** ** Dates, times and the clock *)

Record datetime : Type := DateTime {
  year : nat; month : nat; day : nat;
  hour : nat; minute : nat; second : nat
}.

Definition decimal (n : nat) : string := NilEmpty.string_of_uint (Nat.to_uint n).

(** [%m], [%d], [%H], [%M], [%S]: two digits *)
Definition pad2 (n : nat) : string :=
  if n <? 10 then "0" +:+ decimal n else decimal n.

(** [%Y]: the year in decimal (four digits from the year 1000 on). *)
Definition fmt_Y (t : datetime) : string := decimal (year t).

(** [t.strftime("%Y-%m-%d")] *)
Definition strftime_date (t : datetime) : string :=
  fmt_Y t +:+ "-" +:+ pad2 (month t) +:+ "-" +:+ pad2 (day t).

(** [t.strftime("%Y-%m-%d %H:%M:%S")] *)
Definition strftime_seconds (t : datetime) : string :=
  strftime_date t +:+ " " +:+ pad2 (hour t) +:+ ":" +:+ pad2 (minute t)
  +:+ ":" +:+ pad2 (second t).

(** The world of a run: what the system clock answers to each reading, and
    how many readings were made. *)
Record world : Type := World {
  clock : nat -> datetime;
  readings : nat
}.

(** [datetime.now()] *)
Definition datetime_now (w : world) : datetime * world :=
  (clock w (readings w), World (clock w) (S (readings w))).

(** ** [parse_page] *)

(** The dictionary appended for each leaflet: six fixed keys. *)
Record leaflet : Type := Leaflet {
  title : string;
  thumbnail : string;
  shop_name : string;
  valid_from : string;
  valid_to : string;
  parsed_time : string
}.

(** [a or b] for [a] a string or [None] and [b] a string: [a] when it is
    truthy, that is present and not empty. *)
Definition py_or (a : option string) (b : string) : string :=
  match a with
  | Some v => if bool_decide (v = "") then b else v
  | None => b
  end.

(** Lines 68 and 69.  A tag is always truthy, so [if title_tag] tests for
    [None]. *)
Definition title_of (item : tag_ref) : string :=
  let title_tag := Css.select_one sel_title item in
  match title_tag with
  | Some t => get_text_strip t
  | None => "Unknown"
  end.

(** Lines 72 and 73: [(src or data-src) if img_tag else ""]. *)
Definition thumbnail_of (item : tag_ref) : string :=
  let img_tag := Css.select_one sel_img item in
  match img_tag with
  | Some t => py_or (get t "src") (get_default t "data-src" "")
  | None => ""
  end.

(** Lines 76 and 77. *)
Definition shop_name_of (item : tag_ref) : result string :=
  let shop_tag := Css.select_one sel_logo item in
  match shop_tag with
  | Some t =>
      try! alt := getitem t "alt" in
      Ok (Str.replace "Logo " "" alt)
  | None => Ok "Unknown"
  end.

(** Lines 83 and 84. *)
Definition date_text_of (item : tag_ref) : string :=
  let date_tag :=
    match Css.select_one sel_date_hidden item with
    | Some t => Some t
    | None => Css.select_one sel_date_visible item
    end in
  match date_tag with
  | Some t => get_text_strip t
  | None => ""
  end.

(** The body of the loop, lines 66 to 111, for one tile: the dictionary
    that is appended, or the exception that leaves the loop. *)
Definition parse_item (now : string) (item : tag_ref) : result leaflet :=
  let title := title_of item in
  let thumbnail := thumbnail_of item in
  try! shop_name := shop_name_of item in
  let date_text := date_text_of item in
  try! validity := parse_validity date_text in
  Ok {| title := title;
        thumbnail := thumbnail;
        shop_name := shop_name;
        valid_from := validity.1;
        valid_to := validity.2;
        parsed_time := now |}.

(** The [for] loop over the selected tiles, appending to [leaflets]. *)
Fixpoint parse_loop (now : string) (items : list tag_ref)
    (leaflets : list leaflet) : result (list leaflet) :=
  match items with
  | [] => Ok leaflets
  | item :: rest =>
      try! entry := parse_item now item in
      parse_loop now rest (leaflets ++ [entry])
  end.

(** The tiles of a document: [soup.select(".brochure-thumb")].  [soup] is
    the root object of the parsed document; it has no parent. *)
Definition tiles (soup : node) : list tag_ref :=
  Css.select sel_tile (TagRef [] soup).

(** [parse_page], from the parsed document on. *)
Definition parse_page (soup : node) (w : world) : result (list leaflet) * world :=
  let leaflets := [] in
  let (t, w') := datetime_now w in
  let now := strftime_seconds t in
  (parse_loop now (tiles soup) leaflets, w').

(** ** [format_date] and [parse_dates] *)

Module Strptime.

(** The pattern [datetime.strptime] builds for ["%d.%m.%Y"]:
    [(?P<d>3[0-1]|[1-2]\d|0[1-9]|[1-9]| [1-9])\.(?P<m>1[0-2]|0[1-9]|[1-9])\.(?P<Y>\d\d\d\d)] *)
Definition directive_d : Re.regex :=
  Re.Alt (Re.lit "3" @@ Re.range "0" "1")
    (Re.Alt (Re.range "1" "2" @@ Re.d)
       (Re.Alt (Re.lit "0" @@ Re.range "1" "9")
          (Re.Alt (Re.range "1" "9") (Re.lit " " @@ Re.range "1" "9")))).

Definition directive_m : Re.regex :=
  Re.Alt (Re.lit "1" @@ Re.range "0" "2")
    (Re.Alt (Re.lit "0" @@ Re.range "1" "9") (Re.range "1" "9")).

Definition directive_Y : Re.regex := Re.rep 4 Re.d.

Definition format_regex : Re.regex :=
  Re.Grp directive_d @@ Re.lit "." @@ Re.Grp directive_m @@ Re.lit "."
  @@ Re.Grp directive_Y.

(** [int(s)] on a matched group: decimal digits after an optional
    space. *)
Definition int (s : string) : nat :=
  fold_left
    (fun acc c =>
       if Char.is_digit c then 10 * acc + (N.to_nat (Char.code c) - 48) else acc)
    (list_ascii_of_string s) 0.

Definition is_leap (y : nat) : bool :=
  (y mod 4 =? 0) && (negb (y mod 100 =? 0) || (y mod 400 =? 0)).

Definition days_in_month (y m : nat) : nat :=
  match m with
  | 2 => if is_leap y then 29 else 28
  | 4 | 6 | 9 | 11 => 30
  | _ => 31
  end.

(** [datetime.strptime(date_str, "%d.%m.%Y")]: the text must match the
    pattern from its start and to its end, and the three numbers must
    form a date. *)
Definition strptime (date_str : string) : result datetime :=
  match Re.match_here format_regex date_str with
  | None => Raise (ValueError "time data does not match format")
  | Some found =>
      if negb (String.length date_str =? String.length (Re.group0 found))
      then Raise (ValueError "unconverted data remains")
      else
        match Re.groups found with
        | [gd; gm; gy] =>
            let y := int gy in
            let m := int gm in
            let dd := int gd in
            if y =? 0 then Raise (ValueError "year 0 is out of range")
            else if days_in_month y m <? dd
            then Raise (ValueError "day is out of range for month")
            else Ok (DateTime y m dd 0 0 0)
        | _ => Raise (IndexError "no such group")
        end
  end.

End Strptime.

(** Lines 129 to 134: a [ValueError] of [strptime] becomes ["Unknown"]. *)
Definition format_date (date_str : string) : result string :=
  match Strptime.strptime date_str with
  | Ok t => Ok (strftime_date t)
  | Raise (ValueError _) => Ok "Unknown"
  | Raise e => Raise e
  end.

(** Lines 117 to 125.  Nothing in the program calls [parse_dates], and
    [parse_dates] is the only caller of [format_date]. *)
Definition parse_dates (date_text : string) : result (string * string) :=
  let date_parts := Str.split " - " date_text in
  match date_parts with
  | [part0; part1] =>
      try! valid_from := format_date part0 in
      try! valid_to := format_date part1 in
      Ok (valid_from, valid_to)
  | _ => Ok ("Unknown", "Unknown")
  end.

(** ** The spec's words for the validity rules *)

(** A [DD.MM.YYYY]-shaped token: two digits, a dot, two digits, a dot, four
    digits, and nothing else. *)
Definition dd_mm_yyyy (a : string) : bool :=
  match a with
  | String d1 (String d2 (String p1 (String m1 (String m2 (String p2
      (String y1 (String y2 (String y3 (String y4 ""))))))))) =>
      Char.is_digit d1 && Char.is_digit d2 && Char.exactly "." p1
      && Char.is_digit m1 && Char.is_digit m2 && Char.exactly "." p2
      && Char.is_digit y1 && Char.is_digit y2 && Char.is_digit y3
      && Char.is_digit y4
  | _ => false
  end.

(** The range pattern matches in [t] at the position after [pre]: two
    tokens [a] and [b] separated by [" - "]. *)
Definition range_at (t pre a b post : string) : Prop :=
  t = pre +:+ a +:+ " - " +:+ b +:+ post /\
  dd_mm_yyyy a = true /\ dd_mm_yyyy b = true.

Definition range_matches (t : string) : Prop :=
  exists pre a b post, range_at t pre a b post.

(** A token [a] occurs in [t]; the lead-in of the single-date pattern is
    optional, so the pattern matches exactly when a token occurs. *)
Definition token_at (t pre a post : string) : Prop :=
  t = pre +:+ a +:+ post /\ dd_mm_yyyy a = true.

Definition single_matches (t : string) : Prop :=
  exists pre a post, token_at t pre a post.

(** The time stamp a run started in the world [w] gives to its entries. *)
Definition now_of (w : world) : string :=
  strftime_seconds (clock w (readings w)).

(** ** The spec's words for the thumbnail and the shop name *)

(** "With a fixed literal prefix stripped if present": the prefix is cut
    off at the start, the text after it is left as it is. *)
Definition strip_prefix (prefix s : string) : string :=
  if Str.startswith prefix s then Str.drop (String.length prefix) s else s.

(** The thumbnail rule as the spec words it, for one tile: the direct
    source attribute whenever it is present, the lazy-load attribute only
    when the direct one is absent, the empty string without an image node
    or without either attribute. *)
Definition thumbnail_prefers_present_src (item : tag_ref) : Prop :=
  match Css.select_one sel_img item with
  | Some img =>
      match get img "src" with
      | Some v => thumbnail_of item = v
      | None => thumbnail_of item = get_default img "data-src" ""
      end
  | None => thumbnail_of item = ""
  end.

(** The shop-name rule as the spec words it, for one tile: the [alt] text
    without its ["Logo "] prefix, or ["Unknown"] without a logo image
    node. *)
Definition shop_name_strips_prefix (item : tag_ref) : Prop :=
  match Css.select_one sel_logo item with
  | Some logo =>
      forall alt, get logo "alt" = Some alt ->
        shop_name_of item = Ok (strip_prefix "Logo " alt)
  | None => shop_name_of item = Ok "Unknown"
  end.

(** ** Sample documents *)

Module Sample.

Definition div (cl : string) (contents : list node) : node :=
  Tag "div" [cl] ∅ contents.

(** A tile whose only content is a validity text. *)
Definition tile_with_validity (text : string) : node :=
  div "brochure-thumb"
    [div "grid-item-content"
       [Tag "small" ["hidden-sm"] ∅ [NavigableString text]]].

(** A tile whose image has an empty [src] and a [data-src]. *)
Definition tile_empty_src : node :=
  div "brochure-thumb"
    [div "img-container"
       [Tag "img" [] {[ "src" := ""; "data-src" := "lazy.jpg" ]} []]].

(** A tile whose image has only a [data-src]. *)
Definition tile_lazy_only : node :=
  div "brochure-thumb"
    [div "img-container" [Tag "img" [] {[ "data-src" := "lazy.jpg" ]} []]].

(** A tile whose logo text has ["Logo "] inside, not at the start. *)
Definition tile_logo_inside : node :=
  div "brochure-thumb"
    [div "grid-logo" [Tag "img" [] {[ "alt" := "Bio Logo Markt" ]} []]].

(** A tile whose logo image has no [alt] attribute. *)
Definition tile_logo_without_alt : node :=
  div "brochure-thumb"
    [div "grid-logo" [Tag "img" [] {[ "src" := "lidl.png" ]} []]].

(** A tile with nothing inside. *)
Definition tile_empty : node := div "brochure-thumb" [].

(** A complete tile. *)
Definition tile_full : node :=
  div "brochure-thumb"
    [div "img-container" [Tag "img" [] {[ "src" := "a.jpg" ]} []];
     div "grid-logo" [Tag "img" [] {[ "alt" := "Logo Lidl" ]} []];
     div "grid-item-content"
       [Tag "strong" [] ∅ [NavigableString " Lidl Prospekt "];
        Tag "small" ["hidden-sm"] ∅ [NavigableString "01.01.2025 - 15.01.2025"]]].

Definition document (tiles : list node) : node :=
  Tag "[document]" [] ∅ [Tag "html" [] ∅ [Tag "body" [] ∅ tiles]].

Definition at_root (n : node) : tag_ref := TagRef [] n.

(** A clock that advances by one second at each reading. *)
Definition world0 : world :=
  World (fun n => DateTime 2025 3 21 9 5 (7 + n)) 0.

End Sample.

(** ** What a pattern matches *)

Module ReSem.
Import Re.

Fixpoint all_chars (p : ascii -> bool) (w : string) : bool :=
  match w with
  | "" => true
  | String c w' => p c && all_chars p w'
  end.

(** [matched r w gs]: the pattern [r] matches exactly the text [w], and the
    groups that close on the way hold the texts [gs], in that order. *)
Fixpoint matched (r : regex) (w : string) (gs : list string) : Prop :=
  match r with
  | Eps => w = "" /\ gs = []
  | Cls p => (exists c, w = String c "" /\ p c = true) /\ gs = []
  | Cat r1 r2 =>
      exists w1 w2 gs1 gs2,
        w = w1 +:+ w2 /\ gs = gs1 ++ gs2 /\ matched r1 w1 gs1 /\ matched r2 w2 gs2
  | Alt r1 r2 => matched r1 w gs \/ matched r2 w gs
  | Opt r1 => (w = "" /\ gs = []) \/ matched r1 w gs
  | Plus p => (w <> "" /\ all_chars p w = true) /\ gs = []
  | Grp r1 => exists gs1, matched r1 w gs1 /\ gs = gs1 ++ [w]
  end.

End ReSem.

(** Any character but the dot. *)
Definition no_dot (c : ascii) : bool := negb (Char.exactly "." c).

(** An entry with another time stamp. *)
Definition with_parsed_time (now : string) (e : leaflet) : leaflet :=
  {| title := title e;
     thumbnail := thumbnail e;
     shop_name := shop_name e;
     valid_from := valid_from e;
     valid_to := valid_to e;
     parsed_time := now |}.

(** A tile whose logo lookup finds an image node without [alt]. *)
Definition logo_lacks_alt (item : tag_ref) : Prop :=
  exists logo, Css.select_one sel_logo item = Some logo /\ get logo "alt" = None.


(** The 256 characters. *)
Definition all_ascii : list ascii := ascii_of_nat <$> seq 0 256.

Set Warnings "-abstract-large-number".

(** A date of the calendar [datetime] accepts: year 1 to 9999, a month, a
    day of that month. *)
Definition calendar_date (y m d : nat) : Prop :=
  1 <= y <= 9999 /\ 1 <= m <= 12 /\ 1 <= d <= Strptime.days_in_month y m.


(** Any character but the space. *)
Definition no_space (c : ascii) : bool := negb (Char.exactly " " c).

(** The pieces [get_text] joins: stripped and not empty. *)
Definition piece (p : string) : Prop :=
  exists c r, p = String c r /\ Char.is_space c = false /\ Str.rstrip p = p.


(** ** [save_to_json] *)

Module Json.

Definition dq : ascii := "034"%char.
Definition nl : ascii := "010"%char.

(** The escapes of [json.dump] with [ensure_ascii=False]: the quote, the
    backslash and the characters below 32; everything else is written as
    it is. *)
Definition hex_digit (n : N) : ascii :=
  if (n <? 10)%N then ascii_of_N (48 + n) else ascii_of_N (87 + n).

Definition escape_char (c : ascii) : string :=
  match Char.code c with
  | 34%N => String "\" (String dq "")
  | 92%N => "\\"
  | 8%N => "\b"
  | 9%N => "\t"
  | 10%N => "\n"
  | 12%N => "\f"
  | 13%N => "\r"
  | n =>
      if (n <? 32)%N
      then "\u00" +:+ String (hex_digit (n / 16)) (String (hex_digit (n mod 16)) "")
      else String c ""
  end.

Fixpoint escape (s : string) : string :=
  match s with
  | "" => ""
  | String c s' => escape_char c +:+ escape s'
  end.

(** A string as a JSON string. *)
Definition encode_string (s : string) : string :=
  String dq (escape s +:+ String dq "").

Fixpoint join_sep (sep : string) (parts : list string) : string :=
  match parts with
  | [] => ""
  | [p] => p
  | p :: ps => p +:+ sep +:+ join_sep sep ps
  end.

Fixpoint spaces (n : nat) : string :=
  match n with
  | 0 => ""
  | S n' => String " " (spaces n')
  end.

(** A dictionary of strings inside the list, with [indent=4]: its items
    are indented by 8 and its closing brace by 4. *)
Definition dump_dict (items : list (string * string)) : string :=
  match items with
  | [] => "{}"
  | _ =>
      "{" +:+ String nl (spaces 8)
      +:+ join_sep ("," +:+ String nl (spaces 8))
            ((fun kv => encode_string kv.1 +:+ ": " +:+ encode_string kv.2) <$> items)
      +:+ String nl (spaces 4) +:+ "}"
  end.

(** The items of the dictionary [parse_page] appends, in insertion
    order. *)
Definition leaflet_items (e : leaflet) : list (string * string) :=
  [("title", title e); ("thumbnail", thumbnail e); ("shop_name", shop_name e);
   ("valid_from", valid_from e); ("valid_to", valid_to e);
   ("parsed_time", parsed_time e)].

(** [json.dump(data, f, indent=4, ensure_ascii=False)]: the text written. *)
Definition dumps (data : list leaflet) : string :=
  match data with
  | [] => "[]"
  | _ =>
      "[" +:+ String nl (spaces 4)
      +:+ join_sep ("," +:+ String nl (spaces 4))
            ((fun e => dump_dict (leaflet_items e)) <$> data)
      +:+ String nl "]"
  end.





End Json.

(** ** [fetch_page], [save_to_json] and [run] *)

(** What [session.get(url)] does: it raises, or it returns a response with
    a status code and a text. *)
Inductive http_outcome : Type :=
| NoResponse
| Response (status_code : nat) (text : string).

(** What the program does not decide: the answers of the network, the
    tree [BeautifulSoup(html, "html.parser")] builds from a text, and
    whether a file can be opened for writing. *)
Record env : Type := Env {
  http_get : string -> http_outcome;
  html_parser : string -> node;
  can_open : string -> bool
}.

(** What a run changes: the clock readings, the files and the standard
    output. *)
Record state : Type := State {
  the_world : world;
  files : gmap string string;
  stdout : list string
}.

Inductive run_exn : Type :=
| RequestException
| HTTPError (status_code : nat)
| ParseError (e : exn)
| OSError.

Inductive outcome (A : Type) : Type :=
| Done (a : A)
| Failed (e : run_exn).
Arguments Done {A} a.
Arguments Failed {A} e.

Definition BASE_URL : string := "https://www.prospektmaschine.de".
Definition TARGET_URL : string := BASE_URL +:+ "/hypermarkte/".

(** Lines 40 to 46.  [raise_for_status] raises for the codes 400 to
    599. *)
Definition fetch_page (E : env) (url : string) : outcome string :=
  match http_get E url with
  | NoResponse => Failed RequestException
  | Response status_code text =>
      if (400 <=? status_code) && (status_code <? 600)
      then Failed (HTTPError status_code)
      else Done text
  end.

(** Lines 138 to 140. *)
Definition save_to_json (E : env) (data : list leaflet) (filename : string)
    (st : state) : outcome unit * state :=
  if can_open E filename
  then (Done tt,
        State (the_world st) (<[filename := Json.dumps data]> (files st)) (stdout st))
  else (Failed OSError, st).

(** Lines 145 to 149. *)
Definition run (E : env) (st : state) : outcome unit * state :=
  match fetch_page E TARGET_URL with
  | Failed e => (Failed e, st)
  | Done html =>
      let (parsed, w) := parse_page (html_parser E html) (the_world st) in
      let st1 := State w (files st) (stdout st) in
      match parsed with
      | Raise e => (Failed (ParseError e), st1)
      | Ok leaflets =>
          match save_to_json E leaflets "leaflets.json" st1 with
          | (Failed e, st2) => (Failed e, st2)
          | (Done _, st2) =>
              (Done tt,
               State (the_world st2) (files st2)
                 (stdout st2 ++
                  ["Scraped " +:+ decimal (length leaflets)
                   +:+ " leaflets and saved to leaflets.json"]))
          end
      end
  end.

(** * Properties *)

(** ** Strings *)

Module StrFacts.

Lemma app_cons c s t : String c s +:+ t = String c (s +:+ t).
Proof. reflexivity. Qed.

Lemma app_empty_l s : "" +:+ s = s.
Proof. reflexivity. Qed.

Lemma app_empty_r s : s +:+ "" = s.
Proof. induction s as [|c s IH]; [reflexivity|]. rewrite app_cons, IH. reflexivity. Qed.

Lemma app_assoc s t u : (s +:+ t) +:+ u = s +:+ (t +:+ u).
Proof.
  induction s as [|c s IH]; [reflexivity|].
  rewrite !app_cons, IH. reflexivity.
Qed.

Lemma length_app s t :
  String.length (s +:+ t) = String.length s + String.length t.
Proof.
  induction s as [|c s IH]; [reflexivity|].
  rewrite app_cons. simpl. rewrite IH. reflexivity.
Qed.

Lemma take_drop n s : Str.take n s +:+ Str.drop n s = s.
Proof.
  revert s. induction n as [|n IH]; intros [|c s]; try reflexivity.
  simpl. rewrite app_cons, IH. reflexivity.
Qed.

Lemma length_drop_le n s : String.length (Str.drop n s) <= String.length s.
Proof.
  revert s. induction n as [|n IH]; intros [|c s]; simpl; try lia.
  specialize (IH s). lia.
Qed.

Lemma take_app s t : Str.take (String.length s) (s +:+ t) = s.
Proof.
  induction s as [|c s IH]; [destruct t; reflexivity|].
  rewrite app_cons. simpl. rewrite IH. reflexivity.
Qed.

Lemma drop_app s t : Str.drop (String.length s) (s +:+ t) = t.
Proof.
  induction s as [|c s IH]; [destruct t; reflexivity|].
  rewrite app_cons. simpl. exact IH.
Qed.

Lemma startswith_app p s : Str.startswith p (p +:+ s) = true.
Proof.
  induction p as [|c p IH]; [destruct s; reflexivity|].
  rewrite app_cons. simpl. rewrite Ascii.eqb_refl. exact IH.
Qed.

Lemma startswith_true p s :
  Str.startswith p s = true -> s = p +:+ Str.drop (String.length p) s.
Proof.
  revert s. induction p as [|c p IH]; intros s H.
  - destruct s; reflexivity.
  - destruct s as [|c' s]; [discriminate|]. simpl in H.
    apply andb_prop in H as [Hc Hp]. apply Ascii.eqb_eq in Hc as ->.
    rewrite app_cons. simpl. f_equal. apply IH, Hp.
Qed.

Lemma length_drop_succ n c s :
  String.length (Str.drop (S n) (String c s)) <= String.length s.
Proof. simpl. apply length_drop_le. Qed.

(** Without an occurrence of [old] nothing is replaced. *)
Lemma replace_from_absent fuel old new s :
  Str.contains old s = false -> Str.replace_from fuel old new s = s.
Proof.
  revert s. induction fuel as [|fuel IH]; intros s H; [reflexivity|].
  destruct s as [|c s]; [reflexivity|].
  cbn [Str.replace_from]. cbn [Str.contains] in H.
  apply orb_false_elim in H as [-> H]. rewrite (IH s H). reflexivity.
Qed.

Lemma replace_absent old new s :
  Str.contains old s = false -> Str.replace old new s = s.
Proof. apply replace_from_absent. Qed.

(** Any fuel that covers the text gives the same result. *)
Lemma replace_from_enough a old new n :
  forall s f1 f2,
    String.length s <= n -> String.length s <= f1 -> String.length s <= f2 ->
    Str.replace_from f1 (String a old) new s =
    Str.replace_from f2 (String a old) new s.
Proof.
  induction n as [|n IH]; intros s f1 f2 Hn H1 H2.
  - destruct s; [|simpl in Hn; lia]. destruct f1, f2; reflexivity.
  - destruct s as [|c s]; [destruct f1, f2; reflexivity|].
    simpl in Hn, H1, H2.
    destruct f1 as [|f1]; [lia|]. destruct f2 as [|f2]; [lia|].
    cbn [Str.replace_from].
    destruct (Str.startswith (String a old) (String c s)).
    + f_equal. pose proof (length_drop_succ (String.length old) c s) as Hd.
      cbn [String.length]. apply IH; lia.
    + f_equal. apply IH; lia.
Qed.

(** An occurrence at the start is replaced and the scan goes on behind
    it. *)
Lemma replace_occurrence a old new rest :
  Str.replace (String a old) new (String a old +:+ rest) =
  new +:+ Str.replace (String a old) new rest.
Proof.
  unfold Str.replace. rewrite app_cons. cbn [String.length Str.replace_from].
  rewrite <- app_cons, startswith_app.
  change (S (String.length old)) with (String.length (String a old)).
  rewrite drop_app. f_equal.
  apply (replace_from_enough a old new (String.length rest)); try lia.
  rewrite length_app. lia.
Qed.

End StrFacts.

(** ** The matcher *)

Module ReFacts.
Import Re StrFacts.

Lemma consumed_drop n s : consumed s (Str.drop n s) = Str.take n s.
Proof.
  unfold consumed. revert s.
  induction n as [|n IH]; intros [|c s]; simpl; try reflexivity.
  - rewrite Nat.sub_diag. reflexivity.
  - pose proof (length_drop_le n s) as Hle.
    rewrite Nat.sub_succ_l by exact Hle. simpl. rewrite IH. reflexivity.
Qed.

Section Continuations.
Context {R : Type}.
Implicit Types (k : string -> list string -> option R).

Lemma rmatch_cat r1 r2 s caps k :
  rmatch (r1 @@ r2) s caps k =
  rmatch r1 s caps (fun s' caps' => rmatch r2 s' caps' k).
Proof. reflexivity. Qed.

Lemma rmatch_opt r s caps k :
  rmatch (Opt r) s caps k = or_else (rmatch r s caps k) (k s caps).
Proof. reflexivity. Qed.

Lemma rmatch_lit p s caps k :
  rmatch (lit p) s caps k =
  if Str.startswith p s then k (Str.drop (String.length p) s) caps else None.
Proof.
  revert s. induction p as [|c p IH]; intros s; simpl.
  - destruct s; reflexivity.
  - destruct s as [|c' s]; [reflexivity|]. unfold Char.exactly.
    destruct (Ascii.eqb c c'); simpl; [apply IH | reflexivity].
Qed.

Lemma star_suffix p s (k1 : string -> option R) x :
  star p s k1 = Some x -> exists pre s', s = pre +:+ s' /\ k1 s' = Some x.
Proof.
  induction s as [|c s IH]; simpl; intros H.
  - exists "", "". split; [reflexivity | exact H].
  - destruct (p c).
    + destruct (star p s k1) as [y|] eqn:Hs; simpl in H.
      * destruct (IH H) as (pre & s' & -> & Hk).
        exists (String c pre), s'. split; [reflexivity | exact Hk].
      * exists "", (String c s). split; [reflexivity | exact H].
    + exists "", (String c s). split; [reflexivity | exact H].
Qed.

(** A successful match of a groupless pattern ran its continuation on
    a suffix of the text, with the groups unchanged. *)
Lemma rmatch_groupless r :
  groupless r -> forall s caps k x,
  rmatch r s caps k = Some x ->
  exists pre s', s = pre +:+ s' /\ k s' caps = Some x.
Proof.
  induction r as [|p|r1 IH1 r2 IH2|r1 IH1 r2 IH2|r1 IH1|p|r1 IH1];
    simpl; intros Hg s caps k x H.
  - exists "", s. split; [reflexivity | exact H].
  - destruct s as [|c s]; [discriminate|]. destruct (p c); [|discriminate].
    exists (String c ""), s. split; [reflexivity | exact H].
  - destruct Hg as [Hg1 Hg2].
    destruct (IH1 Hg1 _ _ _ _ H) as (pre1 & s1 & -> & H1).
    destruct (IH2 Hg2 _ _ _ _ H1) as (pre2 & s2 & -> & H2).
    exists (pre1 +:+ pre2), s2. split; [symmetry; apply app_assoc | exact H2].
  - destruct Hg as [Hg1 Hg2].
    destruct (rmatch r1 s caps k) as [y|] eqn:E; simpl in H.
    + apply (IH1 Hg1 _ _ _ _). congruence.
    + apply (IH2 Hg2 _ _ _ _ H).
  - destruct (rmatch r1 s caps k) as [y|] eqn:E; simpl in H.
    + apply (IH1 Hg _ _ _ _). congruence.
    + exists "", s. split; [reflexivity | exact H].
  - destruct s as [|c s]; [discriminate|]. destruct (p c); [|discriminate].
    destruct (star_suffix _ _ _ _ H) as (pre & s' & -> & Hk).
    exists (String c pre), s'. split; [reflexivity | exact Hk].
  - destruct Hg.
Qed.
End Continuations.

(** [search] returns the match at the leftmost position that has one. *)
Lemma search_Some r t m :
  search r t = Some m ->
  exists pre suf, t = pre +:+ suf /\ match_here r suf = Some m /\
    forall pre' suf', t = pre' +:+ suf' ->
      String.length pre' < String.length pre -> match_here r suf' = None.
Proof.
  induction t as [|c t IH]; simpl; intros H.
  - destruct (match_here r "") as [y|] eqn:E; simpl in H; [|discriminate].
    exists "", "". split; [reflexivity|]. split; [congruence|].
    intros pre' suf' _ Hlt. simpl in Hlt. lia.
  - destruct (match_here r (String c t)) as [y|] eqn:E; simpl in H.
    + exists "", (String c t). split; [reflexivity|]. split; [congruence|].
      intros pre' suf' _ Hlt. simpl in Hlt. lia.
    + destruct (IH H) as (pre & suf & -> & Hm & Hleft).
      exists (String c pre), suf. split; [reflexivity|]. split; [exact Hm|].
      intros pre' suf' Heq Hlt. destruct pre' as [|c' pre'].
      * rewrite app_empty_l in Heq. subst suf'. exact E.
      * rewrite !app_cons in Heq. injection Heq as -> Heq.
        apply (Hleft pre' suf' Heq). simpl in Hlt. lia.
Qed.

(** [search] fails only when no position has a match. *)
Lemma search_None r t :
  search r t = None <->
  forall pre suf, t = pre +:+ suf -> match_here r suf = None.
Proof.
  split.
  - induction t as [|c t IH]; simpl; intros H pre suf Heq.
    + destruct pre; [|discriminate]. rewrite app_empty_l in Heq. subst suf.
      destruct (match_here r ""); [discriminate | reflexivity].
    + destruct (match_here r (String c t)) as [y|] eqn:E; [discriminate|].
      simpl in H. destruct pre as [|c' pre].
      * rewrite app_empty_l in Heq. subst suf. exact E.
      * rewrite app_cons in Heq. injection Heq as -> Heq.
        apply (IH H pre suf Heq).
  - induction t as [|c t IH]; simpl; intros H.
    + rewrite (H "" "" eq_refl). reflexivity.
    + rewrite (H "" (String c t) eq_refl). simpl. apply IH.
      intros pre suf ->. apply (H (String c pre) suf). reflexivity.
Qed.

End ReFacts.

(** ** The validity patterns *)

Module ValidityFacts.
Import Re StrFacts ReFacts.

Lemma dd_mm_yyyy_length a : dd_mm_yyyy a = true -> String.length a = 10.
Proof.
  unfold dd_mm_yyyy. intros H.
  do 10 (destruct a as [|? a]; [discriminate|]).
  destruct a; [reflexivity | discriminate].
Qed.

Ltac case_classes :=
  repeat match goal with
    | |- context [Char.is_digit ?c] => destruct (Char.is_digit c)
    | |- context [Char.exactly ?a ?c] => destruct (Char.exactly a c)
    end.

Lemma rmatch_date_token {R} s caps (k : string -> list string -> option R) :
  rmatch date_token s caps k =
  if dd_mm_yyyy (Str.take 10 s) then k (Str.drop 10 s) caps else None.
Proof.
  unfold date_token, d.
  destruct s as [|c1 [|c2 [|c3 [|c4 [|c5 [|c6 [|c7 [|c8 [|c9 [|c10 s]]]]]]]]]];
    cbn -[Char.is_digit Char.exactly]; case_classes; reflexivity.
Qed.

Lemma rmatch_group_date {R} s caps (k : string -> list string -> option R) :
  rmatch (Grp date_token) s caps k =
  if dd_mm_yyyy (Str.take 10 s)
  then k (Str.drop 10 s) (caps ++ [Str.take 10 s]) else None.
Proof.
  cbn [rmatch]. rewrite rmatch_date_token, consumed_drop. reflexivity.
Qed.

Lemma token_split a rest :
  dd_mm_yyyy a = true ->
  Str.take 10 (a +:+ rest) = a /\ Str.drop 10 (a +:+ rest) = rest.
Proof.
  intros Ha. rewrite <- (dd_mm_yyyy_length a Ha).
  split; [apply take_app | apply drop_app].
Qed.

(** The range pattern at one position. *)
Lemma range_here_Some s m :
  match_here range_pattern s = Some m ->
  exists a b post,
    s = a +:+ " - " +:+ b +:+ post /\ dd_mm_yyyy a = true /\
    dd_mm_yyyy b = true /\ groups m = [a; b].
Proof.
  unfold match_here, range_pattern.
  rewrite rmatch_cat, rmatch_group_date.
  destruct (dd_mm_yyyy (Str.take 10 s)) eqn:Ha; [|discriminate].
  rewrite rmatch_cat, rmatch_lit.
  destruct (Str.startswith " - " (Str.drop 10 s)) eqn:Hsep; [|discriminate].
  rewrite rmatch_group_date.
  set (s3 := Str.drop (String.length " - ") (Str.drop 10 s)) in *.
  destruct (dd_mm_yyyy (Str.take 10 s3)) eqn:Hb; [|discriminate].
  intros H. injection H as <-. cbn [groups].
  exists (Str.take 10 s), (Str.take 10 s3), (Str.drop 10 s3).
  split; [|auto].
  rewrite (take_drop 10 s3). subst s3.
  rewrite <- (startswith_true _ _ Hsep). symmetry. apply take_drop.
Qed.

Lemma range_here_complete a b post :
  dd_mm_yyyy a = true -> dd_mm_yyyy b = true ->
  exists m, match_here range_pattern (a +:+ " - " +:+ b +:+ post) = Some m.
Proof.
  intros Ha Hb. unfold match_here, range_pattern.
  rewrite rmatch_cat, rmatch_group_date.
  destruct (token_split a (" - " +:+ b +:+ post) Ha) as [-> ->]. rewrite Ha.
  rewrite rmatch_cat, rmatch_lit, startswith_app, drop_app, rmatch_group_date.
  destruct (token_split b post Hb) as [-> ->]. rewrite Hb. eauto.
Qed.

(** The single-date pattern at one position. *)
Lemma single_here_Some s m :
  match_here single_pattern s = Some m ->
  exists pre a post,
    s = pre +:+ a +:+ post /\ dd_mm_yyyy a = true /\ groups m = [a].
Proof.
  unfold match_here, single_pattern. rewrite rmatch_cat, rmatch_opt.
  intros H.
  match type of H with
  | or_else (rmatch _ _ _ ?k) _ = _ =>
      assert (exists pre s', s = pre +:+ s' /\ k s' [] = Some m)
        as (pre & s' & -> & Hd)
  end.
  { match type of H with or_else ?x ?y = _ => destruct x as [y0|] eqn:E end;
      cbn [or_else] in H.
    - injection H as ->. apply rmatch_groupless in E; [exact E|].
      cbn; unfold w_plus; cbn; tauto.
    - exists "", s. split; [reflexivity | exact H]. }
  cbv beta in Hd. rewrite rmatch_group_date in Hd.
  destruct (dd_mm_yyyy (Str.take 10 s')) eqn:Ha; [|discriminate].
  injection Hd as <-. cbn [groups].
  exists pre, (Str.take 10 s'), (Str.drop 10 s').
  rewrite take_drop. auto.
Qed.

Lemma single_here_complete a post :
  dd_mm_yyyy a = true ->
  exists m, match_here single_pattern (a +:+ post) = Some m.
Proof.
  intros Ha. unfold match_here, single_pattern. rewrite rmatch_cat, rmatch_opt.
  match goal with |- exists m, or_else ?x ?y = _ => destruct x as [y0|] end;
    cbn [or_else]; [eauto|].
  rewrite rmatch_group_date.
  destruct (token_split a post Ha) as [-> ->]. rewrite Ha. eauto.
Qed.

Lemma search_range_Some t m :
  search range_pattern t = Some m ->
  exists pre a b post,
    range_at t pre a b post /\ groups m = [a; b] /\
    forall pre' a' b' post', range_at t pre' a' b' post' ->
      String.length pre <= String.length pre'.
Proof.
  intros H. apply search_Some in H as (pre & suf & Ht & Hm & Hleft).
  apply range_here_Some in Hm as (a & b & post & -> & Ha & Hb & Hg).
  exists pre, a, b, post. split; [split; auto|]. split; [exact Hg|].
  intros pre' a' b' post' (Ht' & Ha' & Hb').
  destruct (le_lt_dec (String.length pre) (String.length pre')) as [|Hlt];
    [assumption|].
  destruct (range_here_complete a' b' post' Ha' Hb') as [m' Hm'].
  rewrite (Hleft pre' _ Ht' Hlt) in Hm'. discriminate.
Qed.

Lemma search_range_None t :
  search range_pattern t = None <-> ~ range_matches t.
Proof.
  split.
  - intros H (pre & a & b & post & Ht & Ha & Hb).
    destruct (range_here_complete a b post Ha Hb) as [m Hm].
    rewrite (proj1 (search_None _ _) H pre _ Ht) in Hm. discriminate.
  - intros Hno. destruct (search range_pattern t) as [m|] eqn:E; [|reflexivity].
    exfalso. apply Hno.
    apply search_range_Some in E as (pre & a & b & post & Hr & _).
    exists pre, a, b, post. exact Hr.
Qed.

Lemma search_single_Some t m :
  search single_pattern t = Some m ->
  exists pre a post, token_at t pre a post /\ groups m = [a].
Proof.
  intros H. apply search_Some in H as (pre & suf & -> & Hm & _).
  apply single_here_Some in Hm as (pre2 & a & post & -> & Ha & Hg).
  exists (pre +:+ pre2), a, post. split; [split; [|exact Ha] | exact Hg].
  symmetry. apply app_assoc.
Qed.

Lemma search_single_None t :
  search single_pattern t = None <-> ~ single_matches t.
Proof.
  split.
  - intros H (pre & a & post & Ht & Ha).
    destruct (single_here_complete a post Ha) as [m Hm].
    rewrite (proj1 (search_None _ _) H pre _ Ht) in Hm. discriminate.
  - intros Hno. destruct (search single_pattern t) as [m|] eqn:E; [|reflexivity].
    exfalso. apply Hno.
    apply search_single_Some in E as (pre & a & post & Hr & _).
    exists pre, a, post. exact Hr.
Qed.

End ValidityFacts.

(** C4.  Range precedence.  When the range pattern matches somewhere in
    the validity text, [valid_from] and [valid_to] are the two tokens of
    its leftmost match; the single-date token decides only when the range
    pattern matches nowhere, and then [valid_to] is ["Unknown"]; when
    neither pattern matches, both are ["Unknown"].  No case raises. *)
Theorem validity_range_precedence (t : string) :
  (range_matches t ->
     exists pre a b post,
       range_at t pre a b post /\
       (forall pre' a' b' post', range_at t pre' a' b' post' ->
          String.length pre <= String.length pre') /\
       parse_validity t = Ok (a, b)) /\
  (~ range_matches t -> single_matches t ->
     exists pre a post,
       token_at t pre a post /\ parse_validity t = Ok (a, "Unknown")) /\
  (~ range_matches t -> ~ single_matches t ->
     parse_validity t = Ok ("Unknown", "Unknown")).
Proof.
  unfold parse_validity. repeat split.
  - intros Hr. destruct (Re.search range_pattern t) as [m|] eqn:E.
    + apply ValidityFacts.search_range_Some in E
        as (pre & a & b & post & Hat & Hg & Hleft).
      exists pre, a, b, post. rewrite Hg. auto.
    + apply ValidityFacts.search_range_None in E. contradiction.
  - intros Hnr Hs. apply ValidityFacts.search_range_None in Hnr. rewrite Hnr.
    destruct (Re.search single_pattern t) as [m|] eqn:E.
    + apply ValidityFacts.search_single_Some in E as (pre & a & post & Hat & Hg).
      exists pre, a, post. split; [exact Hat|].
      unfold Re.group. rewrite Hg. reflexivity.
    + apply ValidityFacts.search_single_None in E. contradiction.
  - intros Hnr Hns.
    apply ValidityFacts.search_range_None in Hnr.
    apply ValidityFacts.search_single_None in Hns.
    rewrite Hnr, Hns. reflexivity.
Qed.

Lemma validity_range_precedence_witness :
  exists a b,
    parse_validity "ab 01.01.2025 - 15.01.2025" = Ok (a, b) /\
    dd_mm_yyyy a = true /\ dd_mm_yyyy b = true.
Proof.
  destruct (proj1 (validity_range_precedence "ab 01.01.2025 - 15.01.2025"))
    as (pre & a & b & post & (_ & Ha & Hb) & _ & Hp).
  - exists "ab ", "01.01.2025", "15.01.2025", "". repeat split.
  - exists a, b. auto.
Defined.

(** C1.  On ["01.01.2025 - 15.01.2025"] the validity handling of
    [parse_page] returns the two tokens as they stand in the text, not in
    ISO form; the entry of a tile with that text carries them unchanged.
    [parse_dates], which nothing calls, is what would give the ISO pair. *)
Theorem range_tokens_left_unformatted :
  parse_validity "01.01.2025 - 15.01.2025" = Ok ("01.01.2025", "15.01.2025") /\
  (forall now,
     parse_item now
       (Sample.at_root (Sample.tile_with_validity "01.01.2025 - 15.01.2025"))
     = Ok (Leaflet "Unknown" "" "Unknown" "01.01.2025" "15.01.2025" now)) /\
  parse_dates "01.01.2025 - 15.01.2025" = Ok ("2025-01-01", "2025-01-15").
Proof. split; [|split; [intros now|]]; reflexivity. Qed.

(** C2.  On ["32.13.2025"] the validity handling of [parse_page] returns
    the token itself as [valid_from]: the text that is no calendar date
    reaches the entry.  [format_date], never applied, would turn it into
    ["Unknown"]. *)
Theorem invalid_date_token_kept :
  parse_validity "32.13.2025" = Ok ("32.13.2025", "Unknown") /\
  (forall now,
     parse_item now (Sample.at_root (Sample.tile_with_validity "32.13.2025"))
     = Ok (Leaflet "Unknown" "" "Unknown" "32.13.2025" "Unknown" now)) /\
  format_date "32.13.2025" = Ok "Unknown".
Proof. split; [|split; [intros now|]]; reflexivity. Qed.

(** C3.  On ["von Montag 03.02.2025"] the lead-in is dropped and
    [valid_to] is ["Unknown"], but [valid_from] is the token as written,
    ["03.02.2025"], where [format_date] would give ["2025-02-03"]. *)
Theorem single_token_left_unformatted :
  parse_validity "von Montag 03.02.2025" = Ok ("03.02.2025", "Unknown") /\
  (forall now,
     parse_item now
       (Sample.at_root (Sample.tile_with_validity "von Montag 03.02.2025"))
     = Ok (Leaflet "Unknown" "" "Unknown" "03.02.2025" "Unknown" now)) /\
  format_date "03.02.2025" = Ok "2025-02-03".
Proof. split; [|split; [intros now|]]; reflexivity. Qed.

(** ** The loop body and the loop *)

Module ExtractFacts.

(** The validity handling never raises. *)
Lemma parse_validity_total t : exists vf vt, parse_validity t = Ok (vf, vt).
Proof.
  unfold parse_validity.
  destruct (Re.search range_pattern t) as [m|] eqn:Er.
  - apply ValidityFacts.search_range_Some in Er as (? & a & b & ? & _ & -> & _).
    eauto.
  - destruct (Re.search single_pattern t) as [m|] eqn:Es; [|eauto].
    apply ValidityFacts.search_single_Some in Es as (? & a & ? & _ & Hg).
    unfold Re.group. rewrite Hg. cbn. eauto.
Qed.

(** The body of the loop raises exactly when the shop name does. *)
Lemma parse_item_raise now item e :
  shop_name_of item = Raise e -> parse_item now item = Raise e.
Proof. unfold parse_item. intros ->. reflexivity. Qed.

Lemma parse_item_ok now item sn :
  shop_name_of item = Ok sn ->
  exists vf vt,
    parse_validity (date_text_of item) = Ok (vf, vt) /\
    parse_item now item =
    Ok (Leaflet (title_of item) (thumbnail_of item) sn vf vt now).
Proof.
  unfold parse_item. intros ->.
  destruct (parse_validity_total (date_text_of item)) as (vf & vt & Hv).
  exists vf, vt. rewrite Hv. split; reflexivity.
Qed.

(** The fields of an entry that was produced. *)
Lemma parse_item_fields now item e :
  parse_item now item = Ok e ->
  title e = title_of item /\ thumbnail e = thumbnail_of item /\
  shop_name_of item = Ok (shop_name e) /\
  parse_validity (date_text_of item) = Ok (valid_from e, valid_to e) /\
  parsed_time e = now.
Proof.
  intros H. destruct (shop_name_of item) as [sn|err] eqn:Hs.
  - destruct (parse_item_ok now item sn Hs) as (vf & vt & Hv & He).
    rewrite He in H. injection H as <-. cbn. rewrite Hv. auto.
  - rewrite (parse_item_raise now item err Hs) in H. discriminate.
Qed.

(** The loop returns the entries of the items, in the order of the
    items, behind what was there; it returns only when no item raises. *)
Lemma parse_loop_ok now items : forall leaflets out,
  parse_loop now items leaflets = Ok out <->
  exists entries,
    Forall2 (fun item e => parse_item now item = Ok e) items entries /\
    out = leaflets ++ entries.
Proof.
  induction items as [|item items IH]; intros leaflets out; cbn [parse_loop].
  - split.
    + intros [= <-]. exists []. split; [constructor|]. by rewrite app_nil_r.
    + intros (entries & HF & ->). inversion HF. by rewrite app_nil_r.
  - destruct (parse_item now item) as [e|err] eqn:He; cbn [bind].
    + rewrite IH. split.
      * intros (entries & HF & ->). exists (e :: entries).
        split; [by constructor|]. by rewrite <- app_assoc.
      * intros (entries & HF & ->). inversion HF as [|? e' ? entries' He' HF']; subst.
        assert (e' = e) as -> by congruence.
        exists entries'. split; [exact HF'|]. by rewrite <- app_assoc.
    + split; [discriminate|].
      intros (entries & HF & _). inversion HF; congruence.
Qed.


Lemma parse_page_unfold soup w :
  parse_page soup w =
  (parse_loop (now_of w) (tiles soup) [],
   World (clock w) (S (readings w))).
Proof. reflexivity. Qed.

End ExtractFacts.

(** Order of the output on the documents on which no tile raises: one
    entry for each matched tile, the [i]-th entry made from the [i]-th
    tile in document order. *)
Lemma parse_page_entries_in_document_order soup w :
  (forall item, item ∈ tiles soup -> exists sn, shop_name_of item = Ok sn) ->
  exists entries,
    (parse_page soup w).1 = Ok entries /\
    Forall2 (fun item e => parse_item (now_of w) item = Ok e)
      (tiles soup) entries.
Proof.
  intros Hall. rewrite ExtractFacts.parse_page_unfold. cbn [fst].
  assert (exists entries,
    Forall2 (fun item e => parse_item (now_of w) item = Ok e)
      (tiles soup) entries) as [entries HF].
  { induction (tiles soup) as [|item items IH].
    - exists []. constructor.
    - destruct (Hall item) as [sn Hs]; [by left|].
      destruct (ExtractFacts.parse_item_ok (now_of w) item sn Hs)
        as (vf & vt & _ & He).
      destruct IH as [entries HF]; [intros i Hi; apply Hall; by right|].
      eexists (_ :: entries). constructor; [exact He | exact HF]. }
  exists entries. split; [|exact HF].
  apply ExtractFacts.parse_loop_ok. exists entries. auto.
Qed.

(** A tile in which none of the lookups finds a node gives the entry of
    the defaults. *)
Lemma parse_item_all_defaults now item :
  Css.select_one sel_title item = None ->
  Css.select_one sel_img item = None ->
  Css.select_one sel_logo item = None ->
  Css.select_one sel_date_hidden item = None ->
  Css.select_one sel_date_visible item = None ->
  parse_item now item = Ok (Leaflet "Unknown" "" "Unknown" "Unknown" "Unknown" now).
Proof.
  intros Ht Hi Hl Hh Hv.
  unfold parse_item, title_of, thumbnail_of, shop_name_of, date_text_of.
  rewrite Ht, Hi, Hl, Hh, Hv. reflexivity.
Qed.

(** C5.  A tile whose logo image has no [alt] attribute: the subscript
    [shop_tag["alt"]] raises [KeyError], no entry is made for the tile, and
    the run over a document that holds such a tile returns no list. *)
Theorem logo_without_alt_raises (now : string) (w : world) :
  Css.select_one sel_logo (Sample.at_root Sample.tile_logo_without_alt) <> None /\
  shop_name_of (Sample.at_root Sample.tile_logo_without_alt)
    = Raise (KeyError "alt") /\
  parse_item now (Sample.at_root Sample.tile_logo_without_alt)
    = Raise (KeyError "alt") /\
  (parse_page (Sample.document [Sample.tile_logo_without_alt]) w).1
    = Raise (KeyError "alt").
Proof. split; [discriminate | repeat split]. Qed.

(** C6 as worded fails on a tile whose image has an empty [src] and a
    [data-src]: the direct source attribute is present, and the thumbnail
    is the [data-src]. *)
Lemma thumbnail_present_empty_src_counterexample :
  get (TagRef [] (Tag "img" [] {[ "src" := ""; "data-src" := "lazy.jpg" ]} []))
      "src" = Some "" /\
  thumbnail_of (Sample.at_root Sample.tile_empty_src) = "lazy.jpg" /\
  ~ thumbnail_prefers_present_src (Sample.at_root Sample.tile_empty_src).
Proof.
  split; [reflexivity|]. split; [reflexivity|].
  intros H. vm_compute in H. discriminate H.
Qed.

(** C6, amended.  The thumbnail is the direct source attribute when that
    is present and not empty; otherwise (absent or empty) it is the
    lazy-load attribute, or [""] when that is absent; and it is [""]
    without an image node.  Every entry made for the tile carries it. *)
Theorem thumbnail_fallback_order (item : tag_ref) :
  (forall img v,
     Css.select_one sel_img item = Some img ->
     get img "src" = Some v -> v <> "" ->
     thumbnail_of item = v) /\
  (forall img,
     Css.select_one sel_img item = Some img ->
     get img "src" = None \/ get img "src" = Some "" ->
     thumbnail_of item = default "" (get img "data-src")) /\
  (Css.select_one sel_img item = None -> thumbnail_of item = "") /\
  (forall now e, parse_item now item = Ok e -> thumbnail e = thumbnail_of item).
Proof.
  unfold thumbnail_of, get_default, get. repeat split.
  - intros img v -> -> Hv. cbn. by rewrite bool_decide_eq_false_2.
  - intros img -> [-> | ->]; cbn; by destruct (tag_attrs (tag img) !! "data-src").
  - by intros ->.
  - intros now e He. by apply ExtractFacts.parse_item_fields in He as (_ & -> & _).
Qed.

Lemma thumbnail_fallback_order_witness :
  thumbnail_of (Sample.at_root Sample.tile_full) = "a.jpg" /\
  thumbnail_of (Sample.at_root Sample.tile_lazy_only) = "lazy.jpg".
Proof.
  split.
  - destruct (thumbnail_fallback_order (Sample.at_root Sample.tile_full))
      as (H & _).
    apply (H _ "a.jpg" eq_refl eq_refl). discriminate.
  - destruct (thumbnail_fallback_order (Sample.at_root Sample.tile_lazy_only))
      as (_ & H & _).
    exact (H _ eq_refl (or_introl eq_refl)).
Defined.

(** C7 as worded fails on a tile whose logo text is ["Bio Logo Markt"]:
    the prefix is not present, yet the shop name is ["Bio Markt"]. *)
Lemma shop_name_inner_logo_counterexample :
  strip_prefix "Logo " "Bio Logo Markt" = "Bio Logo Markt" /\
  shop_name_of (Sample.at_root Sample.tile_logo_inside) = Ok "Bio Markt" /\
  ~ shop_name_strips_prefix (Sample.at_root Sample.tile_logo_inside).
Proof.
  split; [reflexivity|]. split; [reflexivity|].
  intros H. vm_compute in H. specialize (H _ eq_refl). discriminate H.
Qed.

(** C7, amended.  For a logo image node with an [alt] attribute the shop
    name is the [alt] text with every occurrence of ["Logo "] removed,
    found from the left without overlap: it is the [alt] text itself when
    ["Logo "] occurs nowhere in it, and the text behind the prefix when
    ["Logo "] occurs at the start and not again.  Without a logo image node
    the shop name is ["Unknown"] and nothing is raised. *)
Theorem shop_name_removes_every_logo (item : tag_ref) :
  (forall logo alt,
     Css.select_one sel_logo item = Some logo ->
     get logo "alt" = Some alt ->
     shop_name_of item = Ok (Str.replace "Logo " "" alt) /\
     (Str.contains "Logo " alt = false -> shop_name_of item = Ok alt) /\
     (forall rest, alt = "Logo " +:+ rest ->
        Str.contains "Logo " rest = false -> shop_name_of item = Ok rest)) /\
  (Css.select_one sel_logo item = None -> shop_name_of item = Ok "Unknown").
Proof.
  unfold shop_name_of, getitem, get. split.
  - intros logo alt -> ->. cbn [bind]. repeat split.
    + intros Hno. by rewrite StrFacts.replace_absent.
    + intros rest -> Hno.
      by rewrite StrFacts.replace_occurrence, StrFacts.replace_absent.
  - by intros ->.
Qed.

Lemma shop_name_removes_every_logo_witness :
  shop_name_of (Sample.at_root Sample.tile_full) = Ok "Lidl" /\
  shop_name_of (Sample.at_root Sample.tile_empty) = Ok "Unknown".
Proof.
  split.
  - destruct (shop_name_removes_every_logo (Sample.at_root Sample.tile_full))
      as (H & _).
    destruct (H _ "Logo Lidl" eq_refl eq_refl) as (_ & _ & Hrest).
    apply (Hrest "Lidl"); reflexivity.
  - destruct (shop_name_removes_every_logo (Sample.at_root Sample.tile_empty))
      as (_ & H).
    apply H. reflexivity.
Defined.

(** C8.  A run reads the clock once, before the loop, and every entry it
    returns carries that reading as [parsed_time]; so any two entries of a
    run agree on it. *)
Theorem parsed_time_shared (soup : node) (w : world) (entries : list leaflet) :
  (parse_page soup w).1 = Ok entries ->
  readings (parse_page soup w).2 = S (readings w) /\
  (forall e, e ∈ entries -> parsed_time e = now_of w) /\
  (forall e1 e2, e1 ∈ entries -> e2 ∈ entries -> parsed_time e1 = parsed_time e2).
Proof.
  rewrite ExtractFacts.parse_page_unfold. cbn [fst snd readings]. intros H.
  apply ExtractFacts.parse_loop_ok in H as (es & HF & ->). cbn [app].
  assert (forall e, e ∈ es -> parsed_time e = now_of w) as Hall.
  { induction HF as [|item e items es He HF IH]; intros e0 Hin.
    - by apply elem_of_nil in Hin.
    - apply elem_of_cons in Hin as [->|Hin]; [|by apply IH].
      by apply ExtractFacts.parse_item_fields in He as (_ & _ & _ & _ & ->). }
  split; [reflexivity|]. split; [exact Hall|].
  intros e1 e2 H1 H2. by rewrite (Hall e1 H1), (Hall e2 H2).
Qed.

Lemma parsed_time_shared_witness :
  (parse_page (Sample.document [Sample.tile_full; Sample.tile_empty])
     Sample.world0).1
  = Ok [Leaflet "Lidl Prospekt" "a.jpg" "Lidl" "01.01.2025" "15.01.2025"
          "2025-03-21 09:05:07";
        Leaflet "Unknown" "" "Unknown" "Unknown" "Unknown"
          "2025-03-21 09:05:07"] /\
  parsed_time
    (Leaflet "Lidl Prospekt" "a.jpg" "Lidl" "01.01.2025" "15.01.2025"
       "2025-03-21 09:05:07")
  = parsed_time
      (Leaflet "Unknown" "" "Unknown" "Unknown" "Unknown" "2025-03-21 09:05:07").
Proof.
  split; [reflexivity|].
  apply (proj2 (proj2
    (parsed_time_shared
       (Sample.document [Sample.tile_full; Sample.tile_empty])
       Sample.world0 _ eq_refl))).
  - left.
  - right. left.
Defined.

(** C9.  A document with two tiles, the second with a logo image without
    [alt]: the run raises [KeyError] in the second pass of the loop and
    returns no entry at all, where the document has two matching tiles. *)
Theorem tile_without_alt_drops_all_entries (w : world) :
  length (tiles (Sample.document [Sample.tile_full; Sample.tile_logo_without_alt]))
    = 2 /\
  (parse_page
     (Sample.document [Sample.tile_full; Sample.tile_logo_without_alt]) w).1
    = Raise (KeyError "alt").
Proof. split; reflexivity. Qed.

(** C10.  An image node whose [src] is present and empty: the thumbnail is
    the value of [data-src], or [""] without one, as for an image node
    without [src]. *)
Theorem thumbnail_empty_src_as_absent (item img : tag_ref) :
  Css.select_one sel_img item = Some img ->
  get img "src" = Some "" ->
  thumbnail_of item = default "" (get img "data-src") /\
  (forall now e, parse_item now item = Ok e ->
     thumbnail e = default "" (get img "data-src")).
Proof.
  intros Himg Hsrc.
  assert (thumbnail_of item = default "" (get img "data-src")) as Ht.
  { unfold thumbnail_of, get_default, get in *. rewrite Himg, Hsrc. cbn.
    by destruct (tag_attrs (tag img) !! "data-src"). }
  split; [exact Ht|].
  intros now e He.
  apply ExtractFacts.parse_item_fields in He as (_ & -> & _). exact Ht.
Qed.

Lemma thumbnail_empty_src_as_absent_witness :
  thumbnail_of (Sample.at_root Sample.tile_empty_src) = "lazy.jpg".
Proof.
  eapply (proj1 (thumbnail_empty_src_as_absent
                   (Sample.at_root Sample.tile_empty_src) _ eq_refl eq_refl)).
Defined.

(** ** The matcher against what a pattern matches *)

Module ReSemFacts.
Import Re ReSem StrFacts ReFacts.

Lemma consumed_prefix pre s : consumed (pre +:+ s) s = pre.
Proof.
  rewrite <- (drop_app pre s) at 2. rewrite consumed_drop. apply take_app.
Qed.

Section Continuations.
Context {R : Type}.
Implicit Types (k : string -> list string -> option R).

Lemma star_sound p s (k1 : string -> option R) x :
  star p s k1 = Some x ->
  exists pre s', s = pre +:+ s' /\ all_chars p pre = true /\ k1 s' = Some x.
Proof.
  induction s as [|c s IH]; simpl; intros H.
  - exists "", "". auto.
  - destruct (p c) eqn:Hc.
    + destruct (star p s k1) as [y|] eqn:Hs; simpl in H.
      * destruct (IH H) as (pre & s' & -> & Hall & Hk).
        exists (String c pre), s'. simpl. rewrite Hc. auto.
      * exists "", (String c s). auto.
    + exists "", (String c s). auto.
Qed.

(** Soundness: a successful match consumed a prefix that the pattern
    matches, and ran its continuation on the rest with the groups of that
    match added. *)
Lemma rmatch_sound r : forall s caps k x,
  rmatch r s caps k = Some x ->
  exists pre s' gs,
    s = pre +:+ s' /\ matched r pre gs /\ k s' (caps ++ gs) = Some x.
Proof.
  induction r as [|p|r1 IH1 r2 IH2|r1 IH1 r2 IH2|r1 IH1|p|r1 IH1];
    cbn [rmatch matched]; intros s caps k x H.
  - exists "", s, []. rewrite app_nil_r. auto.
  - destruct s as [|c s]; [discriminate|]. destruct (p c) eqn:Hc; [|discriminate].
    exists (String c ""), s, []. rewrite app_nil_r. eauto 6.
  - destruct (IH1 _ _ _ _ H) as (w1 & s1 & gs1 & -> & Hm1 & H1).
    destruct (IH2 _ _ _ _ H1) as (w2 & s2 & gs2 & -> & Hm2 & H2).
    exists (w1 +:+ w2), s2, (gs1 ++ gs2).
    rewrite StrFacts.app_assoc, List.app_assoc. eauto 10.
  - destruct (rmatch r1 s caps k) as [y|] eqn:E; cbn [or_else] in H.
    + rewrite H in E. destruct (IH1 _ _ _ _ E) as (w & s' & gs & ? & ? & ?). eauto 8.
    + destruct (IH2 _ _ _ _ H) as (w & s' & gs & ? & ? & ?). eauto 8.
  - destruct (rmatch r1 s caps k) as [y|] eqn:E; cbn [or_else] in H.
    + rewrite H in E. destruct (IH1 _ _ _ _ E) as (w & s' & gs & ? & ? & ?). eauto 8.
    + exists "", s, []. rewrite app_nil_r. auto.
  - destruct s as [|c s]; [discriminate|]. destruct (p c) eqn:Hc; [|discriminate].
    destruct (star_sound _ _ _ _ H) as (pre & s' & -> & Hall & Hk).
    exists (String c pre), s', []. rewrite app_nil_r.
    split; [reflexivity|]. split; [|exact Hk].
    split; [|reflexivity]. split; [discriminate|]. simpl. by rewrite Hc.
  - destruct (IH1 _ _ _ _ H) as (w & s' & gs & -> & Hm & Hk).
    rewrite consumed_prefix in Hk.
    exists w, s', (gs ++ [w]). rewrite List.app_assoc. eauto 6.
Qed.

Lemma star_complete p pre s' (k1 : string -> option R) :
  all_chars p pre = true -> is_Some (k1 s') ->
  is_Some (star p (pre +:+ s') k1).
Proof.
  intros Hall Hk. induction pre as [|c pre IH].
  - rewrite app_empty_l. destruct s' as [|c s']; simpl.
    + exact Hk.
    + destruct (p c); [|exact Hk].
      destruct (star p s' k1); [by eexists | exact Hk].
  - simpl in Hall. apply andb_prop in Hall as [Hc Hall].
    rewrite app_cons. simpl. rewrite Hc.
    destruct (IH Hall) as [y ->]. by eexists.
Qed.

(** Completeness: when the pattern matches a prefix and the continuation
    accepts the rest whatever the groups, the matcher succeeds (possibly
    through an earlier choice). *)
Lemma rmatch_complete r : forall pre gs s' caps k,
  matched r pre gs -> (forall caps', is_Some (k s' caps')) ->
  is_Some (rmatch r (pre +:+ s') caps k).
Proof.
  induction r as [|p|r1 IH1 r2 IH2|r1 IH1 r2 IH2|r1 IH1|p|r1 IH1];
    cbn [rmatch matched]; intros pre gs s' caps k Hm Hk.
  - destruct Hm as [-> _]. apply Hk.
  - destruct Hm as [(c & -> & Hc) _]. rewrite app_cons, app_empty_l, Hc. apply Hk.
  - destruct Hm as (w1 & w2 & gs1 & gs2 & -> & _ & Hm1 & Hm2).
    rewrite StrFacts.app_assoc. apply (IH1 _ gs1); [exact Hm1|].
    intros caps'. apply (IH2 _ gs2); assumption.
  - destruct (rmatch r1 (pre +:+ s') caps k) as [y|] eqn:E; cbn [or_else].
    + by eexists.
    + destruct Hm as [Hm|Hm].
      * destruct (IH1 _ gs s' caps k Hm Hk) as [y Hy]. congruence.
      * apply (IH2 _ gs); assumption.
  - destruct (rmatch r1 (pre +:+ s') caps k) as [y|] eqn:E; cbn [or_else].
    + by eexists.
    + destruct Hm as [[-> _]|Hm]; [apply Hk|].
      destruct (IH1 _ gs s' caps k Hm Hk) as [y Hy]. congruence.
  - destruct Hm as [[Hne Hall] _]. destruct pre as [|c pre]; [done|].
    simpl in Hall. apply andb_prop in Hall as [Hc Hall].
    rewrite app_cons, Hc. apply star_complete; [exact Hall | apply Hk].
  - destruct Hm as (gs1 & Hm & _). apply (IH1 _ gs1); [exact Hm|].
    intros caps'. apply Hk.
Qed.
End Continuations.

(** [match_here] against [matched]. *)
Lemma match_here_sound r s m :
  match_here r s = Some m ->
  exists rest, s = group0 m +:+ rest /\ matched r (group0 m) (groups m).
Proof.
  unfold match_here. intros H.
  apply rmatch_sound in H as (pre & s' & gs & -> & Hm & H).
  injection H as <-. cbn [group0 groups app]. rewrite consumed_prefix. eauto.
Qed.

Lemma match_here_complete r pre gs rest :
  matched r pre gs -> is_Some (match_here r (pre +:+ rest)).
Proof.
  intros Hm. unfold match_here. apply (rmatch_complete r pre gs); [exact Hm|].
  intros caps'. by eexists.
Qed.

(** Literal text matches itself and nothing else, and closes no group. *)
Lemma matched_lit p w gs : matched (lit p) w gs <-> w = p /\ gs = [].
Proof.
  revert w gs. induction p as [|c p IH]; intros w gs; cbn [lit matched].
  - tauto.
  - split.
    + intros (w1 & w2 & gs1 & gs2 & -> & -> & [(c' & -> & Hc) ->] & Hp).
      apply IH in Hp as [-> ->]. apply Ascii.eqb_eq in Hc as ->. auto.
    + intros [-> ->]. exists (String c ""), p, [], [].
      repeat split; [|by apply IH].
      exists c. split; [reflexivity | apply Ascii.eqb_refl].
Qed.

End ReSemFacts.

(** ** The lead-in of the single-date pattern *)

Module LeadInFacts.
Import Re ReSem StrFacts ReFacts ReSemFacts ValidityFacts.

Lemma all_chars_app p u v :
  all_chars p (u +:+ v) = all_chars p u && all_chars p v.
Proof.
  induction u as [|c u IH]; [reflexivity|].
  rewrite app_cons. simpl. rewrite IH. by rewrite andb_assoc.
Qed.

Lemma all_chars_impl (p q : ascii -> bool) u :
  (forall c, p c = true -> q c = true) ->
  all_chars p u = true -> all_chars q u = true.
Proof.
  intros Hpq. induction u as [|c u IH]; [reflexivity|]. simpl.
  intros [Hc Hu]%andb_prop. by rewrite (Hpq c Hc), IH.
Qed.

Lemma word_no_dot c : Char.is_word c = true -> no_dot c = true.
Proof.
  unfold no_dot, Char.exactly. destruct (Ascii.eqb "." c) eqn:E; [|reflexivity].
  apply Ascii.eqb_eq in E as <-. intros H. vm_compute in H. discriminate.
Qed.

Lemma digit_no_dot c : Char.is_digit c = true -> no_dot c = true.
Proof.
  unfold no_dot, Char.exactly. destruct (Ascii.eqb "." c) eqn:E; [|reflexivity].
  apply Ascii.eqb_eq in E as <-. intros H. vm_compute in H. discriminate.
Qed.

(** What the lead-in matches: ["von "], a word, a space; no dot in it. *)
Lemma matched_lead_in w gs :
  matched (Opt (lit "von " @@ w_plus @@ lit " ")) w gs ->
  gs = [] /\ all_chars no_dot w = true.
Proof.
  cbn [matched]. intros [[-> ->]|H]; [auto|].
  destruct H as (w1 & w2 & gs1 & gs2 & -> & -> & H1 & H2).
  apply matched_lit in H1 as [-> ->].
  destruct H2 as (w3 & w4 & gs3 & gs4 & -> & -> & H3 & H4).
  apply matched_lit in H4 as [-> ->].
  destruct H3 as [[_ Hw] ->]. split; [reflexivity|].
  rewrite !all_chars_app, (all_chars_impl _ no_dot _ word_no_dot Hw).
  reflexivity.
Qed.

(** A token is two digits and a dot, and more. *)
Lemma token_head a :
  dd_mm_yyyy a = true ->
  exists x y rest,
    a = String x (String y (String "." rest)) /\
    Char.is_digit x = true /\ Char.is_digit y = true.
Proof.
  unfold dd_mm_yyyy. intros H.
  do 10 (destruct a as [|? a]; [discriminate|]).
  destruct a; [|discriminate].
  repeat match type of H with _ && _ = true => apply andb_prop in H as [H ?] end.
  match goal with Hd : Char.exactly "." ?c = true |- context [String _ (String _ (String ?c _))] =>
    apply Ascii.eqb_eq in Hd; subst c end.
  eauto 10.
Qed.

(** No token starts inside a dot-free text that a token follows. *)
Lemma no_token_in_lead lead : forall a post pre' a' post',
  all_chars no_dot lead = true ->
  dd_mm_yyyy a = true -> dd_mm_yyyy a' = true ->
  lead +:+ a +:+ post = pre' +:+ a' +:+ post' ->
  String.length lead <= String.length pre'.
Proof.
  induction lead as [|c lead IH]; intros a post pre' a' post' Hl Ha Ha' Heq.
  - simpl. lia.
  - destruct pre' as [|c' pre'].
    + exfalso. rewrite app_empty_l in Heq.
      destruct (token_head a Ha) as (x & y & r & -> & Hx & Hy).
      destruct (token_head a' Ha') as (x' & y' & r' & -> & _ & _).
      apply digit_no_dot in Hx, Hy.
      simpl in Hl. apply andb_prop in Hl as [_ Hl].
      destruct lead as [|c2 [|c3 lead]]; rewrite ?app_cons, ?app_empty_l in Heq;
        injection Heq as _ _ Hdot _; subst.
      * discriminate Hy.
      * discriminate Hx.
      * simpl in Hl. destruct (no_dot c2); discriminate Hl.
    + rewrite !app_cons in Heq. injection Heq as _ Heq.
      simpl in Hl. apply andb_prop in Hl as [_ Hl].
      simpl. apply le_n_S. exact (IH a post pre' a' post' Hl Ha Ha' Heq).
Qed.

(** The single-date pattern at one position: a dot-free lead and the
    token. *)
Lemma single_here_structure s m :
  match_here single_pattern s = Some m ->
  exists lead a post,
    s = lead +:+ a +:+ post /\ dd_mm_yyyy a = true /\ groups m = [a] /\
    all_chars no_dot lead = true.
Proof.
  unfold match_here, single_pattern. rewrite rmatch_cat. intros H.
  apply rmatch_sound in H as (lead & s' & gs & -> & Hlead & H).
  apply matched_lead_in in Hlead as [-> Hlead].
  rewrite rmatch_group_date in H.
  destruct (dd_mm_yyyy (Str.take 10 s')) eqn:Ha; [|discriminate].
  injection H as <-. cbn [groups app].
  exists lead, (Str.take 10 s'), (Str.drop 10 s'). rewrite take_drop. auto.
Qed.

Lemma app_eq_longer p : forall q x y,
  p +:+ x = q +:+ y -> String.length p <= String.length q ->
  exists d, q = p +:+ d /\ x = d +:+ y.
Proof.
  induction p as [|c p IH]; intros q x y Heq Hle.
  - exists q. auto.
  - destruct q as [|c' q]; [simpl in Hle; lia|].
    rewrite !app_cons in Heq. injection Heq as -> Heq.
    destruct (IH q x y Heq) as (d & -> & ->); [simpl in Hle; lia|].
    exists d. auto.
Qed.

(** [search] with the single-date pattern captures the first token of the
    text. *)
Lemma search_single_first t m :
  search single_pattern t = Some m ->
  exists pre a post,
    token_at t pre a post /\ groups m = [a] /\
    forall pre' a' post', token_at t pre' a' post' ->
      String.length pre <= String.length pre'.
Proof.
  intros H. apply search_Some in H as (p0 & suf & Ht & Hm & Hleft).
  apply single_here_structure in Hm as (lead & a & post & -> & Ha & Hg & Hlead).
  exists (p0 +:+ lead), a, post. split.
  { split; [|exact Ha]. rewrite Ht. symmetry. apply app_assoc. }
  split; [exact Hg|].
  intros pre' a' post' [Ht' Ha'].
  destruct (le_lt_dec (String.length p0) (String.length pre')) as [Hle|Hlt].
  - rewrite Ht in Ht'.
    destruct (app_eq_longer _ _ _ _ Ht' Hle) as (d & -> & Hsuf).
    rewrite !length_app. apply Nat.add_le_mono_l.
    exact (no_token_in_lead lead a post d a' post' Hlead Ha Ha' Hsuf).
  - destruct (single_here_complete a' post' Ha') as [m' Hm'].
    rewrite (Hleft pre' _ Ht' Hlt) in Hm'. discriminate.
Qed.

End LeadInFacts.

(** X1.  Shape of the validity fields.  In every entry of a run both sides
    are ["Unknown"], or [valid_from] is a [DD.MM.YYYY]-shaped token and
    [valid_to] is ["Unknown"], or both are such tokens; [valid_to] is never
    a date beside an unknown [valid_from]. *)
Theorem validity_fields_shape (soup : node) (w : world) (entries : list leaflet) :
  (parse_page soup w).1 = Ok entries ->
  forall e, e ∈ entries ->
    (valid_from e = "Unknown" /\ valid_to e = "Unknown") \/
    (dd_mm_yyyy (valid_from e) = true /\ valid_to e = "Unknown") \/
    (dd_mm_yyyy (valid_from e) = true /\ dd_mm_yyyy (valid_to e) = true).
Proof.
  rewrite ExtractFacts.parse_page_unfold. cbn [fst]. intros H.
  apply ExtractFacts.parse_loop_ok in H as (es & HF & ->). cbn [app].
  induction HF as [|item e0 items es He HF IH]; intros e Hin.
  - by apply elem_of_nil in Hin.
  - apply elem_of_cons in Hin as [->|Hin]; [|by apply IH].
    apply ExtractFacts.parse_item_fields in He as (_ & _ & _ & Hv & _).
    revert Hv. generalize (date_text_of item) as t. intros t.
    unfold parse_validity.
    destruct (Re.search range_pattern t) as [m|] eqn:Er.
    + apply ValidityFacts.search_range_Some in Er
        as (? & a & b & ? & (_ & Ha & Hb) & -> & _).
      intros [= <- <-]. auto.
    + destruct (Re.search single_pattern t) as [m|] eqn:Es.
      * apply ValidityFacts.search_single_Some in Es as (? & a & ? & [_ Ha] & Hg).
        unfold Re.group. rewrite Hg. cbn. intros [= <- <-]. auto.
      * intros [= <- <-]. auto.
Qed.

Lemma validity_fields_shape_witness :
  dd_mm_yyyy "01.01.2025" = true /\ dd_mm_yyyy "15.01.2025" = true.
Proof.
  destruct (validity_fields_shape
              (Sample.document [Sample.tile_full; Sample.tile_empty])
              Sample.world0 _ eq_refl
              (Leaflet "Lidl Prospekt" "a.jpg" "Lidl" "01.01.2025" "15.01.2025"
                 "2025-03-21 09:05:07"))
    as [[H _]|[[_ H]|H]].
  - left.
  - discriminate H.
  - discriminate H.
  - exact H.
Defined.

(** X2.  The lead-in never changes the captured date.  When the range
    pattern matches nowhere and the text holds a token, [valid_from] is the
    first [DD.MM.YYYY]-shaped token of the text, whether or not a
    ["von <word> "] lead-in stands before it, and [valid_to] is
    ["Unknown"]. *)
Theorem single_date_is_first_token (t : string) :
  ~ range_matches t -> single_matches t ->
  exists pre a post,
    token_at t pre a post /\
    (forall pre' a' post', token_at t pre' a' post' ->
       String.length pre <= String.length pre') /\
    parse_validity t = Ok (a, "Unknown").
Proof.
  intros Hnr Hs. unfold parse_validity.
  apply ValidityFacts.search_range_None in Hnr. rewrite Hnr.
  destruct (Re.search single_pattern t) as [m|] eqn:E.
  - apply LeadInFacts.search_single_first in E
      as (pre & a & post & Hat & Hg & Hfirst).
    exists pre, a, post. split; [exact Hat|]. split; [exact Hfirst|].
    unfold Re.group. rewrite Hg. reflexivity.
  - apply ValidityFacts.search_single_None in E. contradiction.
Qed.

Lemma single_date_is_first_token_witness :
  exists a, parse_validity "von Montag 03.02.2025 bis 08.02.2025" = Ok (a, "Unknown").
Proof.
  destruct (single_date_is_first_token "von Montag 03.02.2025 bis 08.02.2025")
    as (pre & a & post & _ & _ & H).
  - apply ValidityFacts.search_range_None. reflexivity.
  - exists "von Montag ", "03.02.2025", " bis 08.02.2025". split; reflexivity.
  - exists a. exact H.
Defined.

(** ** When a run raises, and what the clock decides *)

Module RunFacts.

Lemma shop_name_raises item e :
  shop_name_of item = Raise e <-> e = KeyError "alt" /\ logo_lacks_alt item.
Proof.
  unfold shop_name_of, logo_lacks_alt, getitem, get.
  destruct (Css.select_one sel_logo item) as [logo|].
  - destruct (tag_attrs (tag logo) !! "alt") as [alt|] eqn:Ha; cbn [bind].
    + split; [discriminate|]. intros (_ & l & [= <-] & Hn). congruence.
    + split; [intros [= <-]; eauto|]. by intros [-> _].
  - split; [discriminate|]. by intros (_ & l & Hl & _).
Qed.



(** Another time stamp changes the [parsed_time] of the entry and nothing
    else, not even whether the item raises. *)
Lemma parse_item_clock now now' item :
  parse_item now' item =
  match parse_item now item with
  | Ok e => Ok (with_parsed_time now' e)
  | Raise err => Raise err
  end.
Proof.
  destruct (shop_name_of item) as [sn|err] eqn:Hs.
  - destruct (ExtractFacts.parse_item_ok now item sn Hs) as (vf & vt & Hv & ->).
    destruct (ExtractFacts.parse_item_ok now' item sn Hs) as (vf' & vt' & Hv' & ->).
    rewrite Hv in Hv'. by injection Hv' as <- <-.
  - by rewrite !(ExtractFacts.parse_item_raise _ item err Hs).
Qed.

Lemma parse_loop_clock now now' items : forall leaflets,
  parse_loop now' items (with_parsed_time now' <$> leaflets) =
  match parse_loop now items leaflets with
  | Ok es => Ok (with_parsed_time now' <$> es)
  | Raise err => Raise err
  end.
Proof.
  induction items as [|i items IH]; intros leaflets; cbn [parse_loop];
    [reflexivity|].
  rewrite (parse_item_clock now now' i).
  destruct (parse_item now i) as [e|err]; cbn [bind]; [|reflexivity].
  rewrite <- IH. by rewrite fmap_app.
Qed.


End RunFacts.


(** X4.  The clock decides nothing but [parsed_time].  Two runs over the
    same document raise the same exception, or return the same entries up
    to the time stamp: the entries of the second run are those of the first
    with [parsed_time] replaced. *)
Theorem rerun_differs_in_parsed_time_only (soup : node) (w1 w2 : world) :
  (parse_page soup w2).1 =
  match (parse_page soup w1).1 with
  | Ok entries => Ok (with_parsed_time (now_of w2) <$> entries)
  | Raise err => Raise err
  end.
Proof.
  rewrite !ExtractFacts.parse_page_unfold. cbn [fst].
  exact (RunFacts.parse_loop_clock (now_of w1) (now_of w2) (tiles soup) []).
Qed.

(** X5.  One entry per tile, in document order.  When every logo image
    node of every tile has an [alt] attribute, the run returns as many
    entries as the document has matching tiles, and the entry at each
    index is made from the tile at that index: its title, thumbnail, shop
    name and validity are those of that tile. *)
Theorem entries_follow_tiles (soup : node) (w : world) :
  (forall item, item ∈ tiles soup -> ~ logo_lacks_alt item) ->
  exists entries,
    (parse_page soup w).1 = Ok entries /\
    length entries = length (tiles soup) /\
    forall i item, tiles soup !! i = Some item ->
      exists e,
        entries !! i = Some e /\
        title e = title_of item /\ thumbnail e = thumbnail_of item /\
        shop_name_of item = Ok (shop_name e) /\
        parse_validity (date_text_of item) = Ok (valid_from e, valid_to e).
Proof.
  intros Hall.
  destruct (parse_page_entries_in_document_order soup w) as (entries & Hp & HF).
  { intros item Hin. destruct (shop_name_of item) as [sn|err] eqn:Hs; [eauto|].
    apply RunFacts.shop_name_raises in Hs as [_ Hl]. by destruct (Hall item Hin). }
  exists entries. split; [exact Hp|]. split.
  { symmetry. by eapply Forall2_length. }
  intros i item Hi.
  destruct (Forall2_lookup_l _ _ _ _ _ HF Hi) as (e & He & Hitem).
  exists e. split; [exact He|].
  apply ExtractFacts.parse_item_fields in Hitem as (? & ? & ? & ? & _). auto.
Qed.

Lemma entries_follow_tiles_witness :
  exists entries,
    (parse_page (Sample.document [Sample.tile_full; Sample.tile_empty])
       Sample.world0).1 = Ok entries /\
    length entries = 2.
Proof.
  destruct (entries_follow_tiles
              (Sample.document [Sample.tile_full; Sample.tile_empty])
              Sample.world0) as (entries & Hp & Hlen & _).
  - intros item Hin (logo & Hl & Hn).
    apply elem_of_cons in Hin as [->|Hin].
    + vm_compute in Hl. injection Hl as <-. discriminate Hn.
    + apply elem_of_cons in Hin as [->|Hin]; [|by apply elem_of_nil in Hin].
      discriminate Hl.
  - exists entries. split; [exact Hp | exact Hlen].
Defined.

(** ** [strptime] and [format_date] *)

Module StrptimeFacts.
Import Re ReSem StrFacts ReFacts ReSemFacts Strptime.

(** Every character is in [all_ascii], so a class has finitely many
    members and they can be listed. *)
Lemma char_among (p : ascii -> bool) c :
  p c = true -> In c (List.filter p all_ascii).
Proof.
  intros Hc. apply filter_In. split; [|exact Hc].
  unfold all_ascii. rewrite <- (ascii_nat_embedding c).
  apply in_map, in_seq. pose proof (nat_ascii_bounded c). lia.
Qed.

Ltac enum_char H :=
  apply char_among in H; vm_compute in H;
  repeat (destruct H as [<-|H]); try (destruct H).

Lemma groupless_matched r : groupless r -> forall w gs, matched r w gs -> gs = [].
Proof.
  induction r as [|p|r1 IH1 r2 IH2|r1 IH1 r2 IH2|r1 IH1|p|r1 IH1];
    cbn [groupless matched]; intros Hg w gs Hm.
  - tauto.
  - tauto.
  - destruct Hg as [Hg1 Hg2].
    destruct Hm as (w1 & w2 & gs1 & gs2 & _ & -> & Hm1 & Hm2).
    by rewrite (IH1 Hg1 _ _ Hm1), (IH2 Hg2 _ _ Hm2).
  - destruct Hg as [Hg1 Hg2]. destruct Hm as [Hm|Hm]; eauto.
  - destruct Hm as [[_ ->]|Hm]; eauto.
  - tauto.
  - destruct Hg.
Qed.

(** A group around a groupless pattern holds what the pattern matched. *)
Lemma matched_group r w gs :
  groupless r -> matched (Grp r) w gs -> matched r w [] /\ gs = [w].
Proof.
  intros Hg (gs1 & Hm & ->).
  pose proof (groupless_matched r Hg _ _ Hm) as ->. split; [exact Hm | reflexivity].
Qed.


(** What the day, month and year directives match. *)
Ltac open_matched H :=
  repeat match goal with
    | H : _ \/ _ |- _ => destruct H as [H|H]
    | H : _ /\ _ |- _ => destruct H as [? ?]
    | H : exists _, _ |- _ => destruct H as [? H]
    end; subst;
  repeat match goal with
    | H : ?p ?c = true |- _ => is_var c; enum_char H
    end.

Lemma matched_day w gs :
  matched directive_d w gs ->
  1 <= String.length w <= 2 /\ 1 <= int w <= 31 /\ all_chars no_dot w = true.
Proof.
  unfold directive_d, Re.range, Re.d. cbn [matched lit]. intros H.
  open_matched H; vm_compute; repeat split; lia.
Qed.

Lemma matched_month w gs :
  matched directive_m w gs ->
  1 <= String.length w <= 2 /\ 1 <= int w <= 12 /\ all_chars no_dot w = true.
Proof.
  unfold directive_m, Re.range, Re.d. cbn [matched lit]. intros H.
  open_matched H; vm_compute; repeat split; lia.
Qed.

Lemma digit_value c :
  Char.is_digit c = true -> N.to_nat (Char.code c) - 48 <= 9.
Proof. intros H. enum_char H; vm_compute; lia. Qed.

Lemma matched_year w gs :
  matched directive_Y w gs <->
  gs = [] /\ String.length w = 4 /\ all_chars Char.is_digit w = true.
Proof.
  unfold directive_Y, Re.d. cbn [rep matched]. split.
  - intros H.
    repeat match goal with
      | H : _ /\ _ |- _ => destruct H as [? ?]
      | H : exists _, _ |- _ => destruct H as [? H]
      end; subst.
    cbv [String.append]. cbn [String.length all_chars].
    repeat match goal with H : Char.is_digit _ = true |- _ => rewrite H; clear H end.
    auto.
  - intros (-> & Hlen & Hd).
    do 4 (destruct w as [|? w]; [discriminate|]). destruct w; [|discriminate].
    cbn in Hd.
    repeat match type of Hd with _ && _ = true => apply andb_prop in Hd as [? Hd] end.
    exists (String a ""), (String a0 (String a1 (String a2 ""))), [], [].
    repeat split; eauto.
    exists (String a0 ""), (String a1 (String a2 "")), [], [].
    repeat split; eauto.
    exists (String a1 ""), (String a2 ""), [], [].
    repeat split; eauto.
    exists (String a2 ""), "", [], [].
    repeat split; eauto.
Qed.

Lemma year_bound w :
  String.length w = 4 -> all_chars Char.is_digit w = true -> int w <= 9999.
Proof.
  intros Hlen Hd.
  do 4 (destruct w as [|? w]; [discriminate|]). destruct w; [|discriminate].
  cbn in Hd.
  repeat match type of Hd with _ && _ = true => apply andb_prop in Hd as [? Hd] end.
  unfold int. cbn [list_ascii_of_string fold_left].
  repeat match goal with
    | H : Char.is_digit ?c = true |- _ =>
        rewrite H; apply digit_value in H
    end.
  change 9999 with (9 + 10 * (9 + 10 * (9 + 10 * 9))). lia.
Qed.

(** Text without dots before a dot: the split at the first dot is the only
    one. *)
Lemma split_at_dot u : forall u' v v',
  all_chars no_dot u = true -> all_chars no_dot u' = true ->
  u +:+ "." +:+ v = u' +:+ "." +:+ v' -> u = u' /\ v = v'.
Proof.
  induction u as [|c u IH]; intros [|c' u'] v v' Hu Hu' Heq;
    rewrite ?app_cons, ?app_empty_l in Heq.
  - by injection Heq as ->.
  - injection Heq as <- _. simpl in Hu'. discriminate.
  - injection Heq as -> _. simpl in Hu. discriminate.
  - injection Heq as -> Heq.
    simpl in Hu, Hu'. apply andb_prop in Hu as [_ Hu]. apply andb_prop in Hu' as [_ Hu'].
    destruct (IH u' v v') as [-> ->]; auto.
Qed.

Lemma format_regex_groupless :
  groupless directive_d /\ groupless directive_m /\ groupless directive_Y.
Proof. cbn. tauto. Qed.

(** What the whole pattern matches: day, dot, month, dot, year, and its
    three groups. *)
Lemma matched_format_regex w gs :
  matched format_regex w gs <->
  exists gd gm gy,
    w = gd +:+ "." +:+ gm +:+ "." +:+ gy /\ gs = [gd; gm; gy] /\
    matched directive_d gd [] /\ matched directive_m gm [] /\
    matched directive_Y gy [].
Proof.
  destruct format_regex_groupless as (Hgd & Hgm & Hgy).
  unfold format_regex. split.
  - cbn [matched]. fold (matched (lit ".")).
    intros (w1 & w2 & gs1 & gs2 & -> & -> & H1 & H2).
    destruct H2 as (w3 & w4 & gs3 & gs4 & -> & -> & H3 & H4).
    destruct H4 as (w5 & w6 & gs5 & gs6 & -> & -> & H5 & H6).
    destruct H6 as (w7 & w8 & gs7 & gs8 & -> & -> & H7 & H8).
    apply (matched_group _ _ _ Hgd) in H1 as [H1 ->].
    apply (matched_group _ _ _ Hgm) in H5 as [H5 ->].
    apply (matched_group _ _ _ Hgy) in H8 as [H8 ->].
    apply matched_lit in H3 as [-> ->]. apply matched_lit in H7 as [-> ->].
    exists w1, w5, w8. auto.
  - intros (gd & gm & gy & -> & -> & H1 & H2 & H3).
    exists gd, ("." +:+ gm +:+ "." +:+ gy), [gd], [gm; gy].
    repeat split; [by exists [] |].
    exists ".", (gm +:+ "." +:+ gy), [], [gm; gy].
    repeat split; [by apply matched_lit |].
    exists gm, ("." +:+ gy), [gm], [gy].
    repeat split; [by exists [] |].
    exists ".", gy, [], [gy].
    repeat split; [by apply matched_lit | by exists []].
Qed.

(** [strptime] accepts a text exactly when it is day, dot, month, dot,
    year as the directives match them, the year is not 0 and the day is in
    the month. *)
Lemma strptime_spec gd gm gy :
  matched directive_d gd [] -> matched directive_m gm [] ->
  matched directive_Y gy [] ->
  strptime (gd +:+ "." +:+ gm +:+ "." +:+ gy) =
  if int gy =? 0 then Raise (ValueError "year 0 is out of range")
  else if days_in_month (int gy) (int gm) <? int gd
       then Raise (ValueError "day is out of range for month")
       else Ok (DateTime (int gy) (int gm) (int gd) 0 0 0).
Proof.
  intros Hd Hm Hy. set (s := gd +:+ "." +:+ gm +:+ "." +:+ gy).
  unfold strptime.
  destruct (match_here_complete format_regex s [gd; gm; gy] "") as [found Hf].
  { apply matched_format_regex. exists gd, gm, gy. auto. }
  rewrite app_empty_r in Hf. rewrite Hf.
  apply match_here_sound in Hf as (rest & Hs & Hfound).
  apply matched_format_regex in Hfound
    as (gd' & gm' & gy' & Hg0 & Hgs & Hd' & Hm' & Hy').
  rewrite Hg0 in Hs. unfold s in Hs. rewrite !StrFacts.app_assoc in Hs.
  apply split_at_dot in Hs as [<- Hs];
    [|apply (matched_day _ _ Hd) | apply (matched_day _ _ Hd')].
  apply split_at_dot in Hs as [<- Hs];
    [|apply (matched_month _ _ Hm) | apply (matched_month _ _ Hm')].
  apply matched_year in Hy as (_ & Hly & _).
  apply matched_year in Hy' as (_ & Hly' & _).
  assert (rest = "") as ->.
  { apply (f_equal String.length) in Hs. rewrite length_app in Hs.
    destruct rest; [reflexivity | simpl in Hs; lia]. }
  rewrite app_empty_r in Hs. subst gy'.
  rewrite Hg0, Hgs. fold s. rewrite Nat.eqb_refl. reflexivity.
Qed.

Lemma strptime_cases s :
  (exists msg, strptime s = Raise (ValueError msg)) \/
  (exists gd gm gy,
     s = gd +:+ "." +:+ gm +:+ "." +:+ gy /\
     matched directive_d gd [] /\ matched directive_m gm [] /\
     matched directive_Y gy [] /\
     int gy <> 0 /\ int gd <= days_in_month (int gy) (int gm) /\
     strptime s = Ok (DateTime (int gy) (int gm) (int gd) 0 0 0)).
Proof.
  destruct (match_here format_regex s) as [found|] eqn:Hf.
  - pose proof Hf as Hf'. apply match_here_sound in Hf' as (rest & Hs & Hfound).
    destruct rest as [|c rest].
    + rewrite app_empty_r in Hs.
      apply matched_format_regex in Hfound
        as (gd & gm & gy & Hg0 & Hgs & Hd & Hm & Hy).
      rewrite Hg0 in Hs. subst s.
      rewrite (strptime_spec gd gm gy Hd Hm Hy).
      destruct (int gy =? 0) eqn:E0; [eauto|].
      destruct (days_in_month (int gy) (int gm) <? int gd) eqn:E1; [eauto|].
      right. exists gd, gm, gy.
      apply Nat.eqb_neq in E0. apply Nat.ltb_ge in E1. auto 10.
    + left. unfold strptime. rewrite Hf.
      assert ((String.length s =? String.length (group0 found)) = false) as ->.
      { apply Nat.eqb_neq. rewrite Hs at 1. rewrite length_app. simpl. lia. }
      cbn. eauto.
  - left. unfold strptime. rewrite Hf. eauto.
Qed.

End StrptimeFacts.

(** ** Printing numbers and reading them back *)

Module DecimalFacts.
Import StrFacts StrptimeFacts Strptime.





End DecimalFacts.

(** ** [format_date] *)

Module FormatFacts.
Import Re ReSem StrFacts ReSemFacts LeadInFacts StrptimeFacts DecimalFacts Strptime.


Lemma format_date_of_strptime s :
  format_date s =
  match strptime s with
  | Ok t => Ok (strftime_date t)
  | Raise _ => Ok "Unknown"
  end.
Proof.
  unfold format_date. destruct (strptime_cases s) as [[msg ->]|H]; [reflexivity|].
  destruct H as (gd & gm & gy & _ & _ & _ & _ & _ & _ & ->). reflexivity.
Qed.



(** The three parts of a token. *)
Lemma token_parts D M Y :
  dd_mm_yyyy (D +:+ "." +:+ M +:+ "." +:+ Y) = true ->
  String.length D = 2 -> String.length M = 2 ->
  all_chars Char.is_digit D = true /\ all_chars Char.is_digit M = true /\
  all_chars Char.is_digit Y = true /\ String.length Y = 4.
Proof.
  intros H HD HM.
  do 2 (destruct D as [|? D]; [discriminate|]). destruct D; [|discriminate].
  do 2 (destruct M as [|? M]; [discriminate|]). destruct M; [|discriminate].
  cbv [String.append] in H. unfold dd_mm_yyyy in H.
  do 4 (destruct Y as [|? Y]; [discriminate|]). destruct Y; [|discriminate].
  repeat match type of H with _ && _ = true => apply andb_prop in H as [H ?] end.
  cbn [all_chars String.length].
  repeat match goal with Hd : Char.is_digit _ = true |- _ => rewrite Hd; clear Hd end.
  auto.
Qed.

Lemma digits_no_dot w : all_chars Char.is_digit w = true -> all_chars no_dot w = true.
Proof. apply all_chars_impl, digit_no_dot. Qed.


End FormatFacts.

(** X6.  [format_date] never raises: whatever the text, it returns a
    string. *)
Theorem format_date_never_raises (date_str : string) :
  exists r, format_date date_str = Ok r.
Proof.
  rewrite FormatFacts.format_date_of_strptime.
  destruct (Strptime.strptime date_str); eauto.
Qed.

(** X7.  Only texts of 8 to 10 characters can be dates: a text shorter
    than 8 or longer than 10 characters is turned into ["Unknown"]. *)
Theorem format_date_length_window (date_str : string) :
  String.length date_str < 8 \/ 10 < String.length date_str ->
  format_date date_str = Ok "Unknown".
Proof.
  intros Hlen. rewrite FormatFacts.format_date_of_strptime.
  destruct (StrptimeFacts.strptime_cases date_str) as [[msg ->]|H]; [reflexivity|].
  exfalso. destruct H as (gd & gm & gy & -> & Hd & Hm & Hy & _).
  apply StrptimeFacts.matched_day in Hd as (Hd & _).
  apply StrptimeFacts.matched_month in Hm as (Hm & _).
  apply StrptimeFacts.matched_year in Hy as (_ & Hy & _).
  rewrite !StrFacts.length_app in Hlen. simpl in Hlen. lia.
Qed.

Lemma format_date_length_window_witness :
  format_date "01.01.20255" = Ok "Unknown".
Proof. apply format_date_length_window. right. simpl. lia. Defined.

(** X8.  What [format_date] returns is ["Unknown"] or the rendering of a
    date of the calendar: a year from 1 to 9999, a month from 1 to 12 and a
    day that the month has in that year. *)
Theorem format_date_returns_calendar_dates (date_str r : string) :
  format_date date_str = Ok r ->
  r = "Unknown" \/
  exists y m d, calendar_date y m d /\ r = strftime_date (DateTime y m d 0 0 0).
Proof.
  rewrite FormatFacts.format_date_of_strptime.
  destruct (StrptimeFacts.strptime_cases date_str) as [[msg ->]|H].
  - intros [= <-]. by left.
  - destruct H as (gd & gm & gy & _ & Hd & Hm & Hy & Hy0 & Hdim & ->).
    intros [= <-]. right. exists (Strptime.int gy), (Strptime.int gm), (Strptime.int gd).
    split; [|reflexivity].
    apply StrptimeFacts.matched_day in Hd as (_ & Hd & _).
    apply StrptimeFacts.matched_month in Hm as (_ & Hm & _).
    apply StrptimeFacts.matched_year in Hy as (_ & Hl & Hdig).
    pose proof (StrptimeFacts.year_bound gy Hl Hdig).
    unfold calendar_date. lia.
Qed.

Lemma format_date_returns_calendar_dates_witness :
  "2024-02-29" = "Unknown" \/
  exists y m d, calendar_date y m d /\ "2024-02-29" = strftime_date (DateTime y m d 0 0 0).
Proof. exact (format_date_returns_calendar_dates "29.02.2024" _ eq_refl). Defined.



(** X10.  A [DD.MM.YYYY]-shaped token that is not a date of the calendar
    (month 00 or above 12, day 00 or beyond the end of the month, year
    0000) is turned into ["Unknown"]. *)
Theorem format_date_rejects_impossible_token (D M Y : string) :
  dd_mm_yyyy (D +:+ "." +:+ M +:+ "." +:+ Y) = true ->
  String.length D = 2 -> String.length M = 2 ->
  ~ calendar_date (Strptime.int Y) (Strptime.int M) (Strptime.int D) ->
  format_date (D +:+ "." +:+ M +:+ "." +:+ Y) = Ok "Unknown".
Proof.
  intros Htok HD HM Hnot.
  destruct (FormatFacts.token_parts D M Y Htok HD HM) as (HdD & HdM & HdY & HlY).
  rewrite FormatFacts.format_date_of_strptime.
  destruct (StrptimeFacts.strptime_cases (D +:+ "." +:+ M +:+ "." +:+ Y))
    as [[msg ->]|H]; [reflexivity|].
  exfalso. apply Hnot.
  destruct H as (gd & gm & gy & Heq & Hd & Hm & Hy & Hy0 & Hdim & _).
  apply StrptimeFacts.matched_day in Hd as (_ & Hd & Hnd).
  apply StrptimeFacts.matched_month in Hm as (_ & Hm & Hnm).
  apply StrptimeFacts.split_at_dot in Heq as [-> Heq];
    [|by apply FormatFacts.digits_no_dot | exact Hnd].
  apply StrptimeFacts.split_at_dot in Heq as [-> ->];
    [|by apply FormatFacts.digits_no_dot | exact Hnm].
  pose proof (StrptimeFacts.year_bound gy HlY HdY).
  unfold calendar_date. lia.
Qed.

Lemma format_date_rejects_impossible_token_witness :
  format_date "31.04.2025" = Ok "Unknown".
Proof.
  apply (format_date_rejects_impossible_token "31" "04" "2025");
    try reflexivity.
  unfold calendar_date. vm_compute. lia.
Defined.

(** ** [parse_dates] *)

Module SplitFacts.
Import ReSem StrFacts LeadInFacts.

(** Without the separator there is one part, the text itself. *)
Lemma split_from_absent fuel sep s :
  Str.contains sep s = false -> Str.split_from fuel sep s = [s].
Proof.
  revert s. induction fuel as [|fuel IH]; intros s H; [reflexivity|].
  destruct s as [|c s]; [reflexivity|].
  cbn [Str.split_from]. cbn [Str.contains] in H.
  apply orb_false_elim in H as [-> H]. by rewrite (IH s H).
Qed.

Lemma no_space_startswith c s :
  no_space c = true -> Str.startswith " - " (String c s) = false.
Proof.
  unfold no_space, Char.exactly. cbn [Str.startswith].
  by destruct (Ascii.eqb " " c).
Qed.

Lemma no_space_contains s :
  all_chars no_space s = true -> Str.contains " - " s = false.
Proof.
  induction s as [|c s IH]; [reflexivity|].
  cbn [all_chars Str.contains]. intros [Hc Hs]%andb_prop.
  by rewrite (no_space_startswith c s Hc), (IH Hs).
Qed.

(** Two space-free texts joined by the separator split into the two. *)
Lemma split_pair a : forall b fuel,
  all_chars no_space a = true -> all_chars no_space b = true ->
  String.length (a +:+ " - " +:+ b) <= fuel ->
  Str.split_from fuel " - " (a +:+ " - " +:+ b) = [a; b].
Proof.
  induction a as [|c a IH]; intros b fuel Ha Hb Hfuel.
  - rewrite app_empty_l in *. destruct fuel as [|fuel]; [simpl in Hfuel; lia|].
    cbn [Str.split_from]. rewrite startswith_app.
    change (String " " (String "-" (String " " b))) with (" - " +:+ b).
    rewrite drop_app, split_from_absent; [reflexivity|].
    by apply no_space_contains.
  - rewrite app_cons in *. destruct fuel as [|fuel]; [simpl in Hfuel; lia|].
    cbn [Str.split_from].
    cbn [all_chars] in Ha. apply andb_prop in Ha as [Hc Ha].
    rewrite (no_space_startswith _ _ Hc), (IH b fuel Ha Hb); [reflexivity|].
    simpl in Hfuel. lia.
Qed.

Lemma digit_no_space c : Char.is_digit c = true -> no_space c = true.
Proof.
  unfold no_space, Char.exactly. destruct (Ascii.eqb " " c) eqn:E; [|reflexivity].
  apply Ascii.eqb_eq in E as <-. intros H. vm_compute in H. discriminate.
Qed.

Lemma token_no_space a : dd_mm_yyyy a = true -> all_chars no_space a = true.
Proof.
  unfold dd_mm_yyyy. intros H.
  do 10 (destruct a as [|? a]; [discriminate|]). destruct a; [|discriminate].
  repeat match type of H with _ && _ = true => apply andb_prop in H as [H ?] end.
  repeat match goal with
    | Hd : Char.exactly "." ?c = true |- _ => apply Ascii.eqb_eq in Hd; subst c
    | Hd : Char.is_digit _ = true |- _ => apply digit_no_space in Hd
    end.
  cbn [all_chars].
  repeat match goal with Hd : no_space _ = true |- _ => rewrite Hd; clear Hd end.
  reflexivity.
Qed.

End SplitFacts.

(** X11.  [parse_dates] needs the separator: on a text without [" - "],
    even a single valid date, it returns ["Unknown"] on both sides. *)
Theorem parse_dates_without_separator (date_text : string) :
  Str.contains " - " date_text = false ->
  parse_dates date_text = Ok ("Unknown", "Unknown").
Proof.
  intros H. unfold parse_dates, Str.split.
  by rewrite (SplitFacts.split_from_absent _ _ _ H).
Qed.

Lemma parse_dates_without_separator_witness :
  parse_dates "01.01.2025" = Ok ("Unknown", "Unknown").
Proof. apply parse_dates_without_separator. reflexivity. Defined.

(** X12.  On a text that is two [DD.MM.YYYY]-shaped tokens joined by
    [" - "], [parse_dates] returns what [format_date] makes of each token,
    where the validity handling of [parse_page] returns the two tokens as
    they are written. *)
Theorem parse_dates_formats_both_tokens (a b : string) :
  dd_mm_yyyy a = true -> dd_mm_yyyy b = true ->
  exists fa fb,
    format_date a = Ok fa /\ format_date b = Ok fb /\
    parse_dates (a +:+ " - " +:+ b) = Ok (fa, fb) /\
    parse_validity (a +:+ " - " +:+ b) = Ok (a, b).
Proof.
  intros Ha Hb.
  assert (exists fa, format_date a = Ok fa) as [fa Hfa].
  { rewrite FormatFacts.format_date_of_strptime. destruct (Strptime.strptime a); eauto. }
  assert (exists fb, format_date b = Ok fb) as [fb Hfb].
  { rewrite FormatFacts.format_date_of_strptime. destruct (Strptime.strptime b); eauto. }
  exists fa, fb. split; [exact Hfa|]. split; [exact Hfb|]. split.
  - unfold parse_dates, Str.split.
    rewrite SplitFacts.split_pair;
      [| by apply SplitFacts.token_no_space
       | by apply SplitFacts.token_no_space | lia].
    by rewrite Hfa, Hfb.
  - unfold parse_validity.
    destruct (Re.search range_pattern (a +:+ " - " +:+ b)) as [m|] eqn:E.
    + apply ValidityFacts.search_range_Some in E
        as (pre & a' & b' & post & (Heq & Ha' & Hb') & -> & Hleft).
      assert (range_at (a +:+ " - " +:+ b) "" a b "") as H0.
      { split; [by rewrite StrFacts.app_empty_r | auto]. }
      apply Hleft in H0. destruct pre; [|simpl in H0; lia].
      rewrite StrFacts.app_empty_l in Heq.
      pose proof (f_equal (Str.take 10) Heq) as Ht.
      pose proof (f_equal (Str.drop 10) Heq) as Hd.
      rewrite (proj1 (ValidityFacts.token_split a _ Ha)),
              (proj1 (ValidityFacts.token_split a' _ Ha')) in Ht.
      rewrite (proj2 (ValidityFacts.token_split a _ Ha)),
              (proj2 (ValidityFacts.token_split a' _ Ha')) in Hd.
      subst a'. apply (inj (String.app " - ")) in Hd.
      pose proof (f_equal (Str.take 10) Hd) as Ht.
      rewrite <- (StrFacts.app_empty_r b) in Ht at 1.
      rewrite (proj1 (ValidityFacts.token_split b _ Hb)),
              (proj1 (ValidityFacts.token_split b' _ Hb')) in Ht.
      by subst b'.
    + apply ValidityFacts.search_range_None in E. exfalso. apply E.
      exists "", a, b, "". split; [by rewrite StrFacts.app_empty_r | auto].
Qed.

Lemma parse_dates_formats_both_tokens_witness :
  exists fa fb,
    format_date "01.01.2025" = Ok fa /\ format_date "15.01.2025" = Ok fb /\
    parse_dates "01.01.2025 - 15.01.2025" = Ok (fa, fb) /\
    parse_validity "01.01.2025 - 15.01.2025" = Ok ("01.01.2025", "15.01.2025").
Proof.
  exact (parse_dates_formats_both_tokens "01.01.2025" "15.01.2025" eq_refl eq_refl).
Defined.

(** X13.  [parse_dates] never raises, and each side of its result is
    ["Unknown"] or the rendering of a date of the calendar. *)
Theorem parse_dates_never_raises (date_text : string) :
  exists valid_from valid_to,
    parse_dates date_text = Ok (valid_from, valid_to) /\
    (valid_from = "Unknown" \/
     exists y m d, calendar_date y m d /\
       valid_from = strftime_date (DateTime y m d 0 0 0)) /\
    (valid_to = "Unknown" \/
     exists y m d, calendar_date y m d /\
       valid_to = strftime_date (DateTime y m d 0 0 0)).
Proof.
  unfold parse_dates.
  destruct (Str.split " - " date_text) as [|p0 [|p1 [|p2 ps]]];
    try (exists "Unknown", "Unknown"; by auto).
  assert (forall s, exists r, format_date s = Ok r /\
            (r = "Unknown" \/
             exists y m d, calendar_date y m d /\ r = strftime_date (DateTime y m d 0 0 0)))
    as Hfmt.
  { intros s. rewrite FormatFacts.format_date_of_strptime.
    destruct (StrptimeFacts.strptime_cases s) as [[msg ->]|H]; [eauto|].
    destruct H as (gd & gm & gy & _ & Hd & Hm & Hy & Hy0 & Hdim & ->).
    eexists. split; [reflexivity|]. right.
    exists (Strptime.int gy), (Strptime.int gm), (Strptime.int gd).
    split; [|reflexivity].
    apply StrptimeFacts.matched_day in Hd as (_ & Hd & _).
    apply StrptimeFacts.matched_month in Hm as (_ & Hm & _).
    apply StrptimeFacts.matched_year in Hy as (_ & Hl & Hdig).
    pose proof (StrptimeFacts.year_bound gy Hl Hdig).
    unfold calendar_date. lia. }
  destruct (Hfmt p0) as (r0 & -> & H0). destruct (Hfmt p1) as (r1 & -> & H1).
  exists r0, r1. auto.
Qed.

(** ** Stripped text *)

Module StripFacts.
Import StrFacts.

Lemma rstrip_cons c s :
  Str.rstrip (String c s) =
  match Str.rstrip s with
  | "" => if Char.is_space c then "" else String c ""
  | r => String c r
  end.
Proof. reflexivity. Qed.

(** [rstrip] keeps a first character that is no white space. *)
Lemma rstrip_keeps_head c s :
  Char.is_space c = false -> exists r, Str.rstrip (String c s) = String c r.
Proof.
  intros Hc. rewrite rstrip_cons, Hc. destruct (Str.rstrip s); eauto.
Qed.

Lemma rstrip_idem s : Str.rstrip (Str.rstrip s) = Str.rstrip s.
Proof.
  induction s as [|c s IH]; [reflexivity|]. rewrite rstrip_cons.
  destruct (Str.rstrip s) as [|c' r] eqn:E.
  - destruct (Char.is_space c) eqn:Hc; [reflexivity|].
    rewrite rstrip_cons. cbn [Str.rstrip]. by rewrite Hc.
  - rewrite rstrip_cons, IH. reflexivity.
Qed.

Lemma lstrip_head s :
  Str.lstrip s = "" \/ exists c r, Str.lstrip s = String c r /\ Char.is_space c = false.
Proof.
  induction s as [|c s IH]; [by left|]. cbn [Str.lstrip].
  destruct (Char.is_space c) eqn:Hc; [exact IH|]. right. eauto.
Qed.

(** A stripped text is empty, or starts with a character that is no white
    space and is left alone by [rstrip]. *)
Lemma strip_shape s :
  Str.strip s = "" \/
  exists c r, Str.strip s = String c r /\ Char.is_space c = false /\
              Str.rstrip (String c r) = String c r.
Proof.
  unfold Str.strip. destruct (lstrip_head s) as [->|(c & r & -> & Hc)]; [by left|].
  right. destruct (rstrip_keeps_head c r Hc) as [r' Hr].
  exists c, r'. split; [exact Hr|]. split; [exact Hc|].
  rewrite <- Hr. apply rstrip_idem.
Qed.

(** [rstrip] works on the end only. *)
Lemma rstrip_app p q :
  Str.rstrip q <> "" -> Str.rstrip (p +:+ q) = p +:+ Str.rstrip q.
Proof.
  intros Hq. induction p as [|c p IH]; [reflexivity|].
  rewrite !app_cons, rstrip_cons, IH.
  destruct (p +:+ Str.rstrip q) eqn:E; [|reflexivity].
  destruct p; [|discriminate]. rewrite app_empty_l in E. contradiction.
Qed.

Lemma join_shape ps :
  Forall piece ps ->
  Str.join ps = "" \/
  exists c r, Str.join ps = String c r /\ Char.is_space c = false /\
              Str.rstrip (Str.join ps) = Str.join ps.
Proof.
  induction 1 as [|p ps (c & r & -> & Hc & Hr) Hps IH]; [by left|].
  right. unfold Str.join in *. cbn [foldr].
  exists c, (r +:+ foldr String.app "" ps).
  split; [apply app_cons|]. split; [exact Hc|].
  destruct IH as [->|(c' & r' & E & _ & Hj)].
  - by rewrite app_empty_r.
  - rewrite rstrip_app; rewrite Hj; [reflexivity|]. by rewrite E.
Qed.

Lemma join_pieces ps :
  Forall piece ps -> Str.strip (Str.join ps) = Str.join ps.
Proof.
  intros Hps. destruct (join_shape ps Hps) as [->|(c & r & E & Hc & Hr)];
    [reflexivity|].
  unfold Str.strip. rewrite E in *. cbn [Str.lstrip]. by rewrite Hc.
Qed.

Lemma get_text_strip_stripped t :
  Str.strip (get_text_strip t) = get_text_strip t.
Proof.
  unfold get_text_strip. apply join_pieces.
  apply Forall_forall. intros p Hp.
  apply list_elem_of_filter in Hp as [Hne Hp].
  apply list_elem_of_fmap in Hp as (s & -> & _).
  destruct (strip_shape s) as [E|(c & r & E & Hc & Hr)]; [contradiction|].
  exists c, r. by rewrite E.
Qed.

End StripFacts.

(** X14.  The title and the validity text of a tile never start or end
    with white space: stripping them again changes nothing. *)
Theorem title_and_date_text_are_stripped (item : tag_ref) :
  Str.strip (title_of item) = title_of item /\
  Str.strip (date_text_of item) = date_text_of item.
Proof.
  unfold title_of, date_text_of. split.
  - destruct (Css.select_one sel_title item);
      [apply StripFacts.get_text_strip_stripped | reflexivity].
  - destruct (Css.select_one sel_date_hidden item).
    + apply StripFacts.get_text_strip_stripped.
    + destruct (Css.select_one sel_date_visible item);
        [apply StripFacts.get_text_strip_stripped | reflexivity].
Qed.

(** ** The text [save_to_json] writes *)

Module JsonFacts.
Import Json StrFacts.








End JsonFacts.



(** ** [run] *)

Module RunAllFacts.

Lemma run_unfold E st :
  run E st =
  match fetch_page E TARGET_URL with
  | Failed e => (Failed e, st)
  | Done html =>
      let st1 := State (World (clock (the_world st)) (S (readings (the_world st))))
                       (files st) (stdout st) in
      match (parse_page (html_parser E html) (the_world st)).1 with
      | Raise e => (Failed (ParseError e), st1)
      | Ok leaflets =>
          if can_open E "leaflets.json"
          then (Done tt,
                State (the_world st1)
                  (<["leaflets.json" := Json.dumps leaflets]> (files st))
                  (stdout st ++
                   ["Scraped " +:+ decimal (length leaflets)
                    +:+ " leaflets and saved to leaflets.json"]))
          else (Failed OSError, st1)
      end
  end.
Proof.
  unfold run, save_to_json. destruct (fetch_page E TARGET_URL); [|reflexivity].
  rewrite ExtractFacts.parse_page_unfold. cbn [fst].
  destruct (parse_loop _ _ _); [|reflexivity].
  by destruct (can_open E "leaflets.json").
Qed.

End RunAllFacts.




(** X18.  What a successful run leaves behind: [leaflets.json] holds the
    text of the entries [parse_page] returned, one for each tile of the
    parsed text; every other file is as it was; one line is added to the
    standard output, and the number it names is the number of tiles. *)
Theorem successful_run_effects (E : env) (st st' : state) :
  run E st = (Done tt, st') ->
  exists status_code text entries,
    http_get E TARGET_URL = Response status_code text /\
    (parse_page (html_parser E text) (the_world st)).1 = Ok entries /\
    length entries = length (tiles (html_parser E text)) /\
    files st' = <["leaflets.json" := Json.dumps entries]> (files st) /\
    stdout st' =
      stdout st ++
      ["Scraped " +:+ decimal (length (tiles (html_parser E text)))
       +:+ " leaflets and saved to leaflets.json"].
Proof.
  rewrite RunAllFacts.run_unfold. unfold fetch_page.
  destruct (http_get E TARGET_URL) as [|status_code text]; [discriminate|].
  destruct ((400 <=? status_code) && (status_code <? 600)); [discriminate|].
  cbv zeta.
  destruct (parse_page (html_parser E text) (the_world st)).1 as [entries|err] eqn:Hp;
    [|discriminate].
  destruct (can_open E "leaflets.json"); [|discriminate].
  intros [= <-]. exists status_code, text, entries. cbn [files stdout].
  assert (length entries = length (tiles (html_parser E text))) as Hlen.
  { rewrite ExtractFacts.parse_page_unfold in Hp. cbn [fst] in Hp.
    apply ExtractFacts.parse_loop_ok in Hp as (es & HF & ->).
    symmetry. by eapply Forall2_length. }
  rewrite Hlen. auto.
Qed.

Lemma successful_run_effects_witness :
  exists entries,
    length entries = 2 /\
    files (run (Env (fun _ => Response 200 "<html>")
                    (fun _ => Sample.document [Sample.tile_full; Sample.tile_empty])
                    (fun _ => true))
               (State Sample.world0 ∅ [])).2
    = <["leaflets.json" := Json.dumps entries]> ∅.
Proof.
  destruct (successful_run_effects
              (Env (fun _ => Response 200 "<html>")
                   (fun _ => Sample.document [Sample.tile_full; Sample.tile_empty])
                   (fun _ => true))
              (State Sample.world0 ∅ []) _ eq_refl)
    as (code & text & entries & Hget & _ & Hlen & Hfiles & _).
  injection Hget as <- <-. exists entries. split; [exact Hlen | exact Hfiles].
Defined.
